(** * HALO session engine of Titan Core v1 (routes/core_v1.py)

    A shallow embedding of [HaloSessionState] and [HaloEngine] and the
    properties of the session registry: rolling averages, event counting,
    implicit session creation, the [NotFound] answer of [end] and the
    invariants of the registry.

    Conventions of the embedding.
    - A signal value (a Python float that the request layer has checked to
      be finite and non-negative) is the rational number of [Q] that the
      float stands for.  [statistics.mean] adds the values exactly, divides
      exactly and rounds the quotient once to the nearest double
      ([binary64]).
    - [event_count] is a Python [int], here [Z].
    - The registry [HaloEngine.sessions] is a [dict] keyed by strings, here
      a [gmap string HaloSessionState].  Every accumulator object is referred
      to by exactly one entry of the registry, so an in-place mutation of the
      object found under a key is an update of the map at that key.
    - A method is a computation of the monad [Py]: it takes the engine,
      returns the engine as it has left it and either a value or the Python
      exception it raised.

    The second part embeds the request layer of the same file: the
    validators, [trf], [log] and the handlers of the routes.
    - A validator takes any object ([PyVal]); a float may be a NaN or an
      infinity ([PyFloat]), and comparisons and [math.isnan] may raise
      ([outcome]).
    - A character of a string is a code point below 256.
    - A handler is a computation of the monad [Web] on the engine of the
      module and the lines printed so far; the reading of [time.time()] is
      an argument of the handler. *)

From Stdlib Require Import QArith Qround Qpower Qabs Lqa.
From stdpp Require Import gmap strings list fin_maps pretty.

Local Open Scope Z_scope.

(** ** Python outcomes *)

Inductive PyExn : Type :=
  | KeyError (key : string)
  | StatisticsError.

Inductive result (A : Type) : Type :=
  | Ok (a : A)
  | Raise (e : PyExn).

Arguments Ok {A} a.
Arguments Raise {A} e.

Definition result_bind {A B} (r : result A) (k : A → result B) : result B :=
  match r with
  | Ok a => k a
  | Raise e => Raise e
  end.

(** ** [statistics.mean] *)

(** The exact sum that [statistics._sum] accumulates. *)
Definition total (data : list Q) : Q := fold_right Qplus 0%Q data.

(** *** The conversion of a fraction to a float *)

(** The exponent of the leading bit of a positive rational: the [k] with
    [2^k <= x < 2^(k+1)]. *)
Definition floor_log2 (x : Q) : Z :=
  let k := Z.log2 (Qnum x) - Z.log2 (Zpos (Qden x)) in
  if Qle_bool (2 ^ k) x then k else k - 1.

(** The integer nearest to [x]; of two at the same distance, the even one. *)
Definition round_half_even (x : Q) : Z :=
  let f := Qfloor x in
  match (x - inject_Z f ?= 1 # 2)%Q with
  | Lt => f
  | Eq => if Z.even f then f else f + 1
  | Gt => f + 1
  end.

(** The exponent of the last bit of the double nearest to a positive [x]:
    52 places below the leading bit, and not below the last bit of the
    subnormal doubles. *)
Definition ulp_exponent (x : Q) : Z := Z.max (floor_log2 x - 52) (-1074).

(** A positive [x] rounded to 53 bits. *)
Definition binary64_pos (x : Q) : Q :=
  let e := ulp_exponent x in
  (inject_Z (round_half_even (x / 2 ^ e)) * 2 ^ e)%Q.

(** [float(Fraction)], the true division of the numerator by the
    denominator: the double nearest to [x], ties going to the even one, as
    an irreducible fraction.  There is no case for a result beyond the
    largest double: a mean of doubles is not larger than the largest of
    them. *)
Definition binary64 (x : Q) : Q :=
  Qred match Qnum x with
       | Z0 => 0%Q
       | Zpos _ => binary64_pos x
       | Zneg _ => (- binary64_pos (- x))%Q
       end.

(** [statistics.mean(data)] of the Python standard library: it raises
    [StatisticsError] when [data] has no element; otherwise it divides the
    exact total by the number of elements, as a fraction, and converts the
    quotient to a float. *)
Definition statistics_mean (data : list Q) : result Q :=
  let n := length data in
  if (n <? 1)%nat then Raise StatisticsError
  else Ok (binary64 (total data / inject_Z (Z.of_nat n))).

(** ** [HaloSessionState] *)

Record HaloSessionState : Type := mkHaloSessionState {
  session_id : string;
  event_count : Z;
  friction_values : list Q;
  hesitation_values : list Q;
  pace_values : list Q;
}.

(** [HaloSessionState(session_id=sid)]: the dataclass defaults. *)
Definition HaloSessionState_init (sid : string) : HaloSessionState :=
  {| session_id := sid;
     event_count := 0;
     friction_values := [];
     hesitation_values := [];
     pace_values := [] |}.

(** [values.append(v)] guarded by [if v is not None]. *)
Definition append_if_present (values : list Q) (v : option Q) : list Q :=
  match v with
  | Some x => values ++ [x]
  | None => values
  end.

(** [HaloSessionState.record]: the accumulator after the in-place update. *)
Definition record (self : HaloSessionState) (friction hesitation pace : option Q)
  : HaloSessionState :=
  {| session_id := session_id self;
     event_count := event_count self + 1;
     friction_values := append_if_present (friction_values self) friction;
     hesitation_values := append_if_present (hesitation_values self) hesitation;
     pace_values := append_if_present (pace_values self) pace |}.

(** The dictionary that [summary] returns. *)
Record Summary : Type := mkSummary {
  events_count : Z;
  average_friction : option Q;
  average_hesitation : option Q;
  average_pace : option Q;
}.

(** Truth value of a list: [if values] holds when it has an element. *)
Definition truthy (values : list Q) : bool :=
  match values with
  | [] => false
  | _ :: _ => true
  end.

(** [statistics.mean(values) if values else None]. *)
Definition average (values : list Q) : result (option Q) :=
  if truthy values
  then result_bind (statistics_mean values) (λ m, Ok (Some m))
  else Ok None.

(** [HaloSessionState.summary]; the entries of the dictionary are evaluated
    in the order they are written. *)
Definition summary (self : HaloSessionState) : result Summary :=
  result_bind (average (friction_values self)) (λ af,
  result_bind (average (hesitation_values self)) (λ ah,
  result_bind (average (pace_values self)) (λ ap,
  Ok {| events_count := event_count self;
        average_friction := af;
        average_hesitation := ah;
        average_pace := ap |}))).

(** ** [HaloEngine] *)

Record HaloEngine : Type := mkHaloEngine {
  sessions : gmap string HaloSessionState;
}.

(** [HaloEngine()]: the registry starts empty. *)
Definition HaloEngine_init : HaloEngine := {| sessions := ∅ |}.

(** Computations on the engine. *)
Definition Py (A : Type) : Type := HaloEngine → result A * HaloEngine.

Global Instance Py_ret : MRet Py := λ A a self, (Ok a, self).

Global Instance Py_bind : MBind Py := λ A B k m self,
  match m self with
  | (Ok a, self') => k a self'
  | (Raise e, self') => (Raise e, self')
  end.

Definition lift {A} (r : result A) : Py A := λ self, (r, self).

(** [session_id in self.sessions]. *)
Definition contains (sid : string) : Py bool :=
  λ self, (Ok (bool_decide (is_Some (sessions self !! sid))), self).

(** [self.sessions[session_id]], which raises [KeyError] on a missing key. *)
Definition getitem (sid : string) : Py HaloSessionState :=
  λ self,
    match sessions self !! sid with
    | Some state => (Ok state, self)
    | None => (Raise (KeyError sid), self)
    end.

(** [self.sessions[session_id] = state], also the effect of mutating in
    place the object that the registry holds under [session_id]. *)
Definition setitem (sid : string) (state : HaloSessionState) : Py unit :=
  λ self, (Ok tt, {| sessions := <[sid := state]> (sessions self) |}).

(** [HaloEngine.start]. *)
Definition start (sid : string) : Py unit :=
  known ← contains sid;
  if negb known then setitem sid (HaloSessionState_init sid) else mret tt.

(** [HaloEngine.record_event]. *)
Definition record_event (sid : string) (friction hesitation pace : option Q)
  : Py Summary :=
  known ← contains sid;
  (if negb known then start sid else mret tt);;
  state ← getitem sid;
  let state' := record state friction hesitation pace in
  setitem sid state';;
  lift (summary state').

(** [HaloEngine.end]; the answer [None] is the [NotFound] of the
    specification. *)
Definition end_ (sid : string) : Py (option Summary) :=
  known ← contains sid;
  if negb known then mret None
  else state ← getitem sid;
       s ← lift (summary state);
       mret (Some s).

(** ** Clients of the engine *)

(** One call of a client, as the request handlers issue them. *)
Inductive Call : Type :=
  | CallStart (sid : string)
  | CallRecordEvent (sid : string) (friction hesitation pace : option Q)
  | CallEnd (sid : string).

(** The call performed on the engine, its answer dropped. *)
Definition call (c : Call) : Py unit :=
  match c with
  | CallStart sid => start sid
  | CallRecordEvent sid friction hesitation pace =>
      record_event sid friction hesitation pace;; mret tt
  | CallEnd sid => end_ sid;; mret tt
  end.

(** A history of calls performed one after the other. *)
Fixpoint run (cs : list Call) : Py unit :=
  match cs with
  | [] => mret tt
  | c :: cs' => call c;; run cs'
  end.

(** The signals of one event, [(friction, hesitation, pace)]. *)
Definition Event : Type := option Q * option Q * option Q.

(** Successive [record_event] calls on one session, with their answers. *)
Fixpoint record_events (sid : string) (evs : list Event) : Py (list Summary) :=
  match evs with
  | [] => mret []
  | (friction, hesitation, pace) :: evs' =>
      s ← record_event sid friction hesitation pace;
      ss ← record_events sid evs';
      mret (s :: ss)
  end.

(** ** What a history says about a session *)

Inductive Signal : Type := Friction | Hesitation | Pace.

Definition values_of (sig : Signal) (state : HaloSessionState) : list Q :=
  match sig with
  | Friction => friction_values state
  | Hesitation => hesitation_values state
  | Pace => pace_values state
  end.

Definition average_of (sig : Signal) (s : Summary) : option Q :=
  match sig with
  | Friction => average_friction s
  | Hesitation => average_hesitation s
  | Pace => average_pace s
  end.

Definition supplied (sig : Signal) (friction hesitation pace : option Q) : option Q :=
  match sig with
  | Friction => friction
  | Hesitation => hesitation
  | Pace => pace
  end.

(** The values of [sig] that the call [c] supplies to session [sid]. *)
Definition recorded_by (sig : Signal) (sid : string) (c : Call) : list Q :=
  match c with
  | CallRecordEvent sid' friction hesitation pace =>
      if decide (sid' = sid)
      then option_list (supplied sig friction hesitation pace)
      else []
  | _ => []
  end.

(** All values of [sig] supplied to [sid] in the history, oldest first. *)
Definition recorded (sig : Signal) (sid : string) (cs : list Call) : list Q :=
  mjoin (recorded_by sig sid <$> cs).

(** Is [c] an event recorded for [sid]? *)
Definition is_event_of (sid : string) (c : Call) : bool :=
  match c with
  | CallRecordEvent sid' _ _ _ => bool_decide (sid' = sid)
  | _ => false
  end.

(** Number of events recorded for [sid] in the history. *)
Definition events_of (sid : string) (cs : list Call) : Z :=
  Z.of_nat (length (filter (λ c, is_event_of sid c = true) cs)).

(** Does [c] create [sid] when it is unknown? *)
Definition creates (sid : string) (c : Call) : bool :=
  match c with
  | CallStart sid' | CallRecordEvent sid' _ _ _ => bool_decide (sid' = sid)
  | CallEnd _ => false
  end.

(** The accumulator [state] after the history [cs], read off the history. *)
Definition grown (sid : string) (cs : list Call) (state : HaloSessionState)
  : HaloSessionState :=
  {| session_id := session_id state;
     event_count := event_count state + events_of sid cs;
     friction_values := friction_values state ++ recorded Friction sid cs;
     hesitation_values := hesitation_values state ++ recorded Hesitation sid cs;
     pace_values := pace_values state ++ recorded Pace sid cs |}.

(** The mean of a sequence, [None] standing for no data. *)
Definition mean_or_none (values : list Q) : option Q :=
  match values with
  | [] => None
  | _ :: _ => Some (binary64 (total values / inject_Z (Z.of_nat (length values))))
  end.

(** The summary of an accumulator, as a total function. *)
Definition summary_of (state : HaloSessionState) : Summary :=
  {| events_count := event_count state;
     average_friction := mean_or_none (friction_values state);
     average_hesitation := mean_or_none (hesitation_values state);
     average_pace := mean_or_none (pace_values state) |}.

(** [m] is the unweighted arithmetic mean of [values]: [m] times their
    number is their sum. *)
Definition is_mean (m : Q) (values : list Q) : Prop :=
  (m * inject_Z (Z.of_nat (length values)) == total values)%Q.

(** ** The scenario of the specification *)

(** The doubles that the literals [0.1], [0.2], [0.4], [0.6] and [0.9]
    denote. *)
Definition float_0_1 : Q := (3602879701896397 # 36028797018963968)%Q.
Definition float_0_2 : Q := (3602879701896397 # 18014398509481984)%Q.
Definition float_0_4 : Q := (3602879701896397 # 9007199254740992)%Q.
Definition float_0_6 : Q := (5404319552844595 # 9007199254740992)%Q.
Definition float_0_9 : Q := (8106479329266893 # 9007199254740992)%Q.

Definition scenario : Py (Summary * Summary * option Summary) :=
  start "s1";;
  s1 ← record_event "s1" (Some float_0_4) (Some float_0_2) None;
  s2 ← record_event "s1" (Some float_0_6) None (Some float_0_9);
  e ← end_ "s1";
  mret (s1, s2, e).

(** ** Notions used in the statements *)

(** The accumulator that an operation on [sid] works on: the one of the
    registry, or a new one. *)
Definition state_for (sid : string) (self : HaloEngine) : HaloSessionState :=
  default (HaloSessionState_init sid) (sessions self !! sid).

(** The entry of [sid] after the history [cs], from its entry [o] before. *)
Definition after_history (sid : string) (cs : list Call)
    (o : option HaloSessionState) : option HaloSessionState :=
  match o with
  | Some state => Some (grown sid cs state)
  | None =>
      if existsb (creates sid) cs
      then Some (grown sid cs (HaloSessionState_init sid))
      else None
  end.

(** [m] is the unweighted arithmetic mean of [values] rounded to the
    nearest double. *)
Definition is_rounded_mean (m : Q) (values : list Q) : Prop :=
  ∃ mu, is_mean mu values ∧ m = binary64 mu.

(** The summary [s] reports [values] for the signal [sig]: their mean
    rounded to the nearest double, or the marker [None] when there is
    none. *)
Definition reports (sig : Signal) (s : Summary) (values : list Q) : Prop :=
  match values with
  | [] => average_of sig s = None
  | _ :: _ => ∃ m, average_of sig s = Some m ∧ is_rounded_mean m values
  end.

(** The summary [s] reports for [sig] the very mean of [values], with no
    rounding, or the marker [None] when there is none. *)
Definition reports_exactly (sig : Signal) (s : Summary) (values : list Q) : Prop :=
  match values with
  | [] => average_of sig s = None
  | _ :: _ => ∃ m, average_of sig s = Some m ∧ is_mean m values
  end.

(** A rational that is a double: rounding leaves it as it is. *)
Definition is_double (v : Q) : Prop := (binary64 v == v)%Q.

(** An accumulator with the friction values [0.1] and [0.2]. *)
Definition state_tenths : HaloSessionState :=
  {| session_id := "s1";
     event_count := 2;
     friction_values := [float_0_1; float_0_2];
     hesitation_values := [];
     pace_values := [] |}.

(** Two events on one session, with these two friction values. *)
Definition history_tenths : list Call :=
  [CallRecordEvent "s1" (Some float_0_1) None None;
   CallRecordEvent "s1" (Some float_0_2) None None].

(** A session of the engine is fresh when it is unknown or has recorded
    nothing yet. *)
Definition fresh (sid : string) (self : HaloEngine) : Prop :=
  match sessions self !! sid with
  | Some state =>
      event_count state = 0 ∧ friction_values state = [] ∧
      hesitation_values state = [] ∧ pace_values state = []
  | None => True
  end.

(** Three events, the second with no signal at all. *)
Definition three_events : list Event :=
  [(Some (4 # 10)%Q, Some (2 # 10)%Q, None);
   (None, None, None);
   (Some (6 # 10)%Q, None, Some (9 # 10)%Q)].

(** A history that starts one session and records two events on it. *)
Definition history_s1 : list Call :=
  [CallStart "s1";
   CallRecordEvent "s1" (Some (4 # 10)%Q) (Some (2 # 10)%Q) None;
   CallRecordEvent "s1" (Some (6 # 10)%Q) None (Some (9 # 10)%Q)].

(** The engine after that history. *)
Definition engine_s1 : HaloEngine := (run history_s1 HaloEngine_init).2.

(** The accumulator of its session. *)
Definition state_s1 : HaloSessionState :=
  {| session_id := "s1";
     event_count := 2;
     friction_values := [(4 # 10)%Q; (6 # 10)%Q];
     hesitation_values := [(2 # 10)%Q];
     pace_values := [(9 # 10)%Q] |}.

(** [M] calls on one session, each carrying one friction value. *)
Definition friction_calls (sid : string) (values : list Q) : list Call :=
  (λ v, CallRecordEvent sid (Some v) None None) <$> values.

(** * The request layer of routes/core_v1.py *)

(** ** Values that reach the validators *)

(** A Python float: a finite value, an infinity or a NaN. *)
Inductive PyFloat : Type :=
  | FNan
  | FInf (negative : bool)
  | FFinite (q : Q).

(** A Python object, as far as the validators tell objects apart; [VOther]
    stands for an object that is no [None], number or [str] and has no
    conversion to a number (a list, a dict). *)
Inductive PyVal : Type :=
  | VNone
  | VBool (b : bool)
  | VInt (z : Z)
  | VFloat (f : PyFloat)
  | VStr (s : string)
  | VOther.

(** The exceptions of comparisons and of the [math] module. *)
Inductive MathExn : Type :=
  | OverflowError
  | TypeError.

Inductive outcome (A : Type) : Type :=
  | Returns (a : A)
  | Throws (e : MathExn).

Arguments Returns {A} a.
Arguments Throws {A} e.

Global Instance outcome_ret : MRet outcome := λ A a, Returns a.

Global Instance outcome_bind : MBind outcome := λ A B k o,
  match o with
  | Returns a => k a
  | Throws e => Throws e
  end.

(** ** Strings *)

(** [str.isspace] of one character; a character of a Rocq string is read as
    a code point below 256, where the white space is the ranges 9-13 and
    28-32 and the code points 133 and 160. *)
Definition isspace (c : Ascii.ascii) : bool :=
  let n := Ascii.N_of_ascii c in
  ((9 <=? n) && (n <=? 13) || (28 <=? n) && (n <=? 32) || (n =? 133) || (n =? 160))%N.

(** [s.lstrip()]. *)
Fixpoint lstrip (s : string) : string :=
  match s with
  | EmptyString => EmptyString
  | String c s' => if isspace c then lstrip s' else s
  end.

(** [s.rstrip()]. *)
Fixpoint rstrip (s : string) : string :=
  match s with
  | EmptyString => EmptyString
  | String c s' =>
      match rstrip s' with
      | EmptyString => if isspace c then EmptyString else String c EmptyString
      | String c' t => String c (String c' t)
      end
  end.

(** [s.strip()]: white space removed at both ends. *)
Definition strip (s : string) : string := rstrip (lstrip s).

(** Does every character of [s] satisfy [str.isspace]? *)
Fixpoint all_space (s : string) : bool :=
  match s with
  | EmptyString => true
  | String c s' => isspace c && all_space s'
  end.

(** Truth value of [Optional[str]]: [None] and the empty string are false. *)
Definition str_truthy (o : option string) : bool :=
  match o with
  | Some s => negb (bool_decide (s = ""))
  | None => false
  end.

(** ** Validation layer *)

(** [validate_session_id]. *)
Definition validate_session_id (session_id : PyVal) : option string :=
  match session_id with
  | VStr s =>
      if bool_decide (strip s = "")
      then Some "Invalid session_id: must be a non-empty string."
      else None
  | _ => Some "Invalid session_id: must be a non-empty string."
  end.

(** [validate_event_type]. *)
Definition validate_event_type (event_type : PyVal) : option string :=
  match event_type with
  | VStr s =>
      if bool_decide (strip s = "")
      then Some "Invalid event_type: must be a non-empty string."
      else None
  | _ => Some "Invalid event_type: must be a non-empty string."
  end.

(** [isinstance(value, (int, float))]; a [bool] is an [int]. *)
Definition is_number (value : PyVal) : bool :=
  match value with
  | VBool _ | VInt _ | VFloat _ => true
  | _ => false
  end.

(** [f < 0] on floats: false for a NaN, true for minus infinity. *)
Definition float_lt_zero (f : PyFloat) : bool :=
  match f with
  | FNan => false
  | FInf negative => negative
  | FFinite q => Qnum q <? 0
  end.

(** [value < 0]. *)
Definition lt_zero (value : PyVal) : outcome bool :=
  match value with
  | VBool _ => Returns false
  | VInt z => Returns (z <? 0)
  | VFloat f => Returns (float_lt_zero f)
  | _ => Throws TypeError
  end.

(** An [int] that the conversion to a float refuses: one that rounds, to
    nearest and ties to even, beyond the largest double. *)
Definition float_overflows (z : Z) : bool := 2 ^ 1024 - 2 ^ 970 <=? Z.abs z.

(** [math.isnan(x)]; an [int] is converted to a float first. *)
Definition math_isnan (x : PyVal) : outcome bool :=
  match x with
  | VFloat FNan => Returns true
  | VFloat _ | VBool _ => Returns false
  | VInt z => if float_overflows z then Throws OverflowError else Returns false
  | _ => Throws TypeError
  end.

(** [math.isinf(x)]. *)
Definition math_isinf (x : PyVal) : outcome bool :=
  match x with
  | VFloat (FInf _) => Returns true
  | VFloat _ | VBool _ => Returns false
  | VInt z => if float_overflows z then Throws OverflowError else Returns false
  | _ => Throws TypeError
  end.

(** [validate_timestamp]. *)
Definition validate_timestamp (timestamp : PyVal) : outcome (option string) :=
  if negb (is_number timestamp)
  then Returns (Some "Invalid timestamp: must be a number.")
  else
    negative ← lt_zero timestamp;
    if negative : bool
    then Returns (Some "Invalid timestamp: must be >= 0.")
    else
      nan ← math_isnan timestamp;
      bad ← (if nan : bool then Returns true else math_isinf timestamp);
      if bad : bool
      then Returns (Some "Invalid timestamp: must be a finite number.")
      else Returns None.

(** [validate_signal]. *)
Definition validate_signal (name : string) (value : PyVal) : outcome (option string) :=
  match value with
  | VNone => Returns None
  | _ =>
    if negb (is_number value)
    then Returns (Some ("Invalid " +:+ name +:+ ": must be a number."))
    else
      negative ← lt_zero value;
      if negative : bool
      then Returns (Some ("Invalid " +:+ name +:+ ": must be >= 0."))
      else
        nan ← math_isnan value;
        bad ← (if nan : bool then Returns true else math_isinf value);
        if bad : bool
        then Returns (Some ("Invalid " +:+ name +:+ ": must be a finite number."))
        else Returns None
  end.

(** ** Requests and responses *)

(** The request models; [metadata] and [context], which no handler reads,
    are left out. *)
Module StartSessionRequest.
Record t : Type := mk {
  session_id : string;
  user_id : option string;
}.
End StartSessionRequest.

Module EventRequest.
Record t : Type := mk {
  session_id : string;
  event_type : string;
  timestamp : PyFloat;
  friction : option PyFloat;
  hesitation : option PyFloat;
  pace : option PyFloat;
}.
End EventRequest.

Module EndSessionRequest.
Record t : Type := mk {
  session_id : string;
  include_summary : bool;
}.
End EndSessionRequest.

(** The dictionaries that the handlers put under ["data"]. *)
Inductive Data : Type :=
  | DataEmpty
  | DataUser (user_id : option string)
  | DataSummary (s : Summary)
  | DataStatus (service version mode : string).

(** Truth value of a dictionary: only the empty one is false. *)
Definition data_truthy (d : Data) : bool :=
  match d with
  | DataEmpty => false
  | _ => true
  end.

(** The envelope that [trf] builds; [version] and [timestamp] are the
    entries of ["meta"]. *)
Module Response.
Record t : Type := mk {
  ok : bool;
  session_id : option string;
  event : option string;
  data : Data;
  msg : option string;
  version : string;
  timestamp : Q;
}.
End Response.

Definition API_VERSION : string := "1.0.0".

(** [trf]; [now] is what [time.time()] returns. *)
Definition trf (ok : bool) (session_id event : option string)
    (data : option Data) (msg : option string) (now : Q) : Response.t :=
  {| Response.ok := ok;
     Response.session_id := session_id;
     Response.event := event;
     Response.data :=
       match data with
       | Some d => if data_truthy d then d else DataEmpty
       | None => DataEmpty
       end;
     Response.msg := msg;
     Response.version := API_VERSION;
     Response.timestamp := now |}.

(** ** Handlers *)

(** What a handler works on: the engine of the module and the lines
    printed so far. *)
Record World : Type := mkWorld {
  halo_engine : HaloEngine;
  stdout : list string;
}.

(** The module just loaded. *)
Definition World_init : World :=
  {| halo_engine := HaloEngine_init; stdout := [] |}.

(** How a handler can end other than by returning: an exception of the
    engine or of a validator, or a signal that is no finite number handed
    to the engine, which is modelled on finite values only. *)
Inductive Failure : Type :=
  | EngineRaised (e : PyExn)
  | ValidatorRaised (e : MathExn)
  | NonFiniteSignal.

Inductive reply (A : Type) : Type :=
  | Replies (a : A)
  | Fails (f : Failure).

Arguments Replies {A} a.
Arguments Fails {A} f.

Definition Web (A : Type) : Type := World → reply A * World.

Global Instance Web_ret : MRet Web := λ A a w, (Replies a, w).

Global Instance Web_bind : MBind Web := λ A B k m w,
  match m w with
  | (Replies a, w') => k a w'
  | (Fails f, w') => (Fails f, w')
  end.

(** A method of [halo_engine]. *)
Definition on_engine {A} (m : Py A) : Web A :=
  λ w,
    match m (halo_engine w) with
    | (Ok a, engine') =>
        (Replies a, {| halo_engine := engine'; stdout := stdout w |})
    | (Raise e, engine') =>
        (Fails (EngineRaised e), {| halo_engine := engine'; stdout := stdout w |})
    end.

(** A validator. *)
Definition validated {A} (o : outcome A) : Web A :=
  λ w,
    match o with
    | Returns a => (Replies a, w)
    | Throws e => (Fails (ValidatorRaised e), w)
    end.

(** [log]: one line printed. *)
Definition log (msg : string) : Web unit :=
  λ w, (Replies tt,
        {| halo_engine := halo_engine w;
           stdout := stdout w ++ ["[TITAN-CORE] " +:+ msg] |}).

(** An optional float of a request as an object. *)
Definition float_val (v : option PyFloat) : PyVal :=
  match v with
  | Some f => VFloat f
  | None => VNone
  end.

(** An optional float of a request as the engine takes it. *)
Definition engine_signal (v : option PyFloat) : Web (option Q) :=
  match v with
  | None => mret None
  | Some (FFinite q) => mret (Some q)
  | Some _ => λ w, (Fails NonFiniteSignal, w)
  end.

(** [a or b] on optional messages: [b] is evaluated when [a] is false. *)
Definition or_else (a b : outcome (option string)) : outcome (option string) :=
  x ← a; if str_truthy x then Returns x else b.

(** The statement [err = ... or ... or ...] of the handler of [/v1/event]. *)
Definition event_error (payload : EventRequest.t) : outcome (option string) :=
  or_else (Returns (validate_session_id (VStr (EventRequest.session_id payload))))
  (or_else (Returns (validate_event_type (VStr (EventRequest.event_type payload))))
  (or_else (validate_timestamp (VFloat (EventRequest.timestamp payload)))
  (or_else (validate_signal "friction" (float_val (EventRequest.friction payload)))
  (or_else (validate_signal "hesitation" (float_val (EventRequest.hesitation payload)))
           (validate_signal "pace" (float_val (EventRequest.pace payload))))))).

Module Routes.

(** [health]. *)
Definition health (now : Q) : Web Response.t :=
  mret (trf true None None None (Some "ok") now).

(** [status]. *)
Definition status (now : Q) : Web Response.t :=
  mret (trf true None None
          (Some (DataStatus "titan-x-core" API_VERSION "dev")) None now).

(** [start_session]. *)
Definition start_session (payload : StartSessionRequest.t) (now : Q)
  : Web Response.t :=
  let sid := StartSessionRequest.session_id payload in
  let err := validate_session_id (VStr sid) in
  if str_truthy err then mret (trf false None None None err now)
  else
    on_engine (start sid);;
    log ("Session started: " +:+ sid);;
    mret (trf true (Some sid) (Some "session_started")
            (Some (DataUser (StartSessionRequest.user_id payload))) None now).

(** [record_event], the handler of [/v1/event]; in its body [record_event]
    is still the method of the engine. *)
Definition record_event (payload : EventRequest.t) (now : Q) : Web Response.t :=
  let sid := EventRequest.session_id payload in
  let event_type := EventRequest.event_type payload in
  err ← validated (event_error payload);
  if str_truthy err
  then mret (trf false (Some sid) (Some event_type) None err now)
  else
    friction ← engine_signal (EventRequest.friction payload);
    hesitation ← engine_signal (EventRequest.hesitation payload);
    pace ← engine_signal (EventRequest.pace payload);
    rolling ← on_engine (record_event sid friction hesitation pace);
    log ("Event: " +:+ event_type +:+ " | Session: " +:+ sid
         +:+ " | Count: " +:+ pretty (events_count rolling));;
    mret (trf true (Some sid) (Some event_type) (Some (DataSummary rolling)) None now).

(** [end_session]. *)
Definition end_session (payload : EndSessionRequest.t) (now : Q) : Web Response.t :=
  let sid := EndSessionRequest.session_id payload in
  let err := validate_session_id (VStr sid) in
  if str_truthy err then mret (trf false None None None err now)
  else
    summary ← on_engine (end_ sid);
    match summary with
    | None => mret (trf false (Some sid) None None (Some "Session not found.") now)
    | Some s =>
        log ("Session ended: " +:+ sid +:+ " | Total events: "
             +:+ pretty (events_count s));;
        if negb (EndSessionRequest.include_summary payload)
        then mret (trf true (Some sid) (Some "session_ended") None None now)
        else mret (trf true (Some sid) (Some "session_ended")
                     (Some (DataSummary s)) None now)
    end.

End Routes.

(** One request, with the reading of the clock while it is served. *)
Inductive Request : Type :=
  | GetHealth (now : Q)
  | GetStatus (now : Q)
  | PostStart (payload : StartSessionRequest.t) (now : Q)
  | PostEvent (payload : EventRequest.t) (now : Q)
  | PostEnd (payload : EndSessionRequest.t) (now : Q).

(** The router. *)
Definition handle (r : Request) : Web Response.t :=
  match r with
  | GetHealth now => Routes.health now
  | GetStatus now => Routes.status now
  | PostStart payload now => Routes.start_session payload now
  | PostEvent payload now => Routes.record_event payload now
  | PostEnd payload now => Routes.end_session payload now
  end.

(** Requests served one after the other, with their responses. *)
Fixpoint serve (rs : list Request) : Web (list Response.t) :=
  match rs with
  | [] => mret []
  | r :: rs' => a ← handle r; answers ← serve rs'; mret (a :: answers)
  end.

(** ** Notions used in the statements on the request layer *)

(** A history on sessions other than ["s1"], with a [start] and an [end] on
    ["s1"] itself. *)
Definition history_others : list Call :=
  [CallRecordEvent "s2" (Some 1%Q) None None;
   CallStart "s1";
   CallEnd "s1";
   CallStart "s3";
   CallRecordEvent "s2" None (Some 2%Q) None].

(** The numbers that [validate_timestamp] and [validate_signal] let pass:
    a [bool], an [int] from 0 up to the largest one that converts to a
    float, a finite float that is not negative. *)
Definition acceptable_number (value : PyVal) : Prop :=
  match value with
  | VBool _ => True
  | VInt z => 0 ≤ z < 2 ^ 1024 - 2 ^ 970
  | VFloat (FFinite q) => (0 <= q)%Q
  | _ => False
  end.

(** A float that the handlers let through: finite and not negative. *)
Definition float_ok (f : PyFloat) : bool :=
  match f with
  | FFinite q => Qle_bool 0 q
  | _ => false
  end.

(** An optional signal that the handlers let through. *)
Definition signal_ok (v : option PyFloat) : bool :=
  match v with
  | Some f => float_ok f
  | None => true
  end.

(** The signal as the engine receives it. *)
Definition to_engine (v : option PyFloat) : option Q :=
  match v with
  | Some (FFinite q) => Some q
  | _ => None
  end.

(** An event request whose six checked fields are all in order. *)
Definition event_ok (payload : EventRequest.t) : bool :=
  negb (all_space (EventRequest.session_id payload)) &&
  negb (all_space (EventRequest.event_type payload)) &&
  float_ok (EventRequest.timestamp payload) &&
  signal_ok (EventRequest.friction payload) &&
  signal_ok (EventRequest.hesitation payload) &&
  signal_ok (EventRequest.pace payload).

(** The call on the engine that a request amounts to, if any. *)
Definition accepted_call (r : Request) : option Call :=
  match r with
  | PostStart payload _ =>
      let sid := StartSessionRequest.session_id payload in
      if all_space sid then None else Some (CallStart sid)
  | PostEvent payload _ =>
      if event_ok payload
      then Some (CallRecordEvent (EventRequest.session_id payload)
                   (to_engine (EventRequest.friction payload))
                   (to_engine (EventRequest.hesitation payload))
                   (to_engine (EventRequest.pace payload)))
      else None
  | PostEnd payload _ =>
      let sid := EndSessionRequest.session_id payload in
      if all_space sid then None else Some (CallEnd sid)
  | GetHealth _ | GetStatus _ => None
  end.

(** Is [r] one of the three requests on sessions? *)
Definition on_session (r : Request) : bool :=
  match r with
  | PostStart _ _ | PostEvent _ _ | PostEnd _ _ => true
  | GetHealth _ | GetStatus _ => false
  end.

(** A world whose engine holds the session ["s1"]. *)
Definition world_s1 : World := {| halo_engine := engine_s1; stdout := [] |}.

(** An event whose pace is infinite, and one that is in order. *)
Definition event_bad : EventRequest.t :=
  EventRequest.mk "s1" "click" (FFinite 1) (Some (FFinite (4 # 10))) None
    (Some (FInf false)).

Definition event_good : EventRequest.t :=
  EventRequest.mk "s1" "click" (FFinite 1) (Some (FFinite (4 # 10))) None None.

(** Requests of every kind, some of them refused. *)
Definition requests_s1 : list Request :=
  [GetHealth 1;
   PostEvent event_bad 2;
   PostStart (StartSessionRequest.mk "s1" None) 3;
   PostEvent event_good 4;
   PostEnd (EndSessionRequest.mk "  " true) 5;
   PostEnd (EndSessionRequest.mk "s1" false) 6].

(** * Properties *)

(** ** Rounding to a double *)

Lemma pow2_pos (e : Z) : (0 < 2 ^ e)%Q.
Proof. by apply Qpower_0_lt. Qed.

Lemma pow2_succ (e : Z) : (2 ^ (e + 1) == 2 ^ e * 2)%Q.
Proof. by rewrite Qpower_plus. Qed.

Lemma pow2_le (a b : Z) : a ≤ b → (2 ^ a <= 2 ^ b)%Q.
Proof. intros Hab. by apply Qpower_le_compat_l. Qed.

Lemma pow2_inject (n : Z) : 0 ≤ n → (inject_Z (2 ^ n) == 2 ^ n)%Q.
Proof. intros Hn. by rewrite Zpower_Qpower. Qed.

Lemma log2_bounds (n : positive) :
  (2 ^ Z.log2 (Zpos n) <= inject_Z (Zpos n))%Q ∧
  (inject_Z (Zpos n) < 2 ^ (Z.log2 (Zpos n) + 1))%Q.
Proof.
  destruct (Z.log2_spec (Zpos n)) as [Hlo Hhi]; [done|].
  pose proof (Z.log2_nonneg (Zpos n)) as Hnn.
  rewrite <- !pow2_inject by lia. split.
  - by rewrite <- Zle_Qle.
  - rewrite <- Zlt_Qlt. by rewrite <- Z.add_1_r in Hhi.
Qed.

Lemma floor_log2_spec (x : Q) :
  (0 < x)%Q →
  (2 ^ floor_log2 x <= x)%Q ∧ (x < 2 ^ (floor_log2 x + 1))%Q.
Proof.
  destruct x as [n d]. intros Hx.
  assert (Hn : 0 < n) by (unfold Qlt in Hx; cbn in Hx; lia).
  destruct n as [|n|n]; try done.
  destruct (log2_bounds n) as [Hnlo Hnhi], (log2_bounds d) as [Hdlo Hdhi].
  unfold floor_log2. cbn [Qnum Qden].
  set (a := Z.log2 (Z.pos n)) in *. set (b := Z.log2 (Z.pos d)) in *.
  assert (Hd : (0 < inject_Z (Z.pos d))%Q) by done.
  assert (Hdiv : (Z.pos n # d == inject_Z (Z.pos n) / inject_Z (Z.pos d))%Q)
    by apply Qmake_Qdiv.
  destruct (Qle_bool (2 ^ (a - b)) (Z.pos n # d)) eqn:Htest.
  - apply Qle_bool_iff in Htest. split; [done|].
    rewrite Hdiv. apply Qlt_shift_div_r; [done|].
    eapply Qlt_le_trans; [exact Hnhi|].
    replace (a + 1) with (a - b + 1 + b) by lia.
    rewrite (Qpower_plus 2 (a - b + 1) b) by done.
    apply Qmult_le_l; [apply pow2_pos|done].
  - assert (Hlt : (Z.pos n # d < 2 ^ (a - b))%Q).
    { apply Qnot_le_lt. intros Hle%Qle_bool_iff. congruence. }
    replace (a - b - 1 + 1) with (a - b) by lia. split; [|done].
    rewrite Hdiv. apply Qle_shift_div_l; [done|].
    eapply Qle_trans; [|exact Hnlo].
    replace a with (a - b - 1 + (b + 1)) at 2 by lia.
    rewrite (Qpower_plus 2 (a - b - 1) (b + 1)) by done.
    apply Qmult_le_l; [apply pow2_pos|]. by apply Qlt_le_weak.
Qed.

Lemma floor_log2_le (x y : Q) :
  (0 < x)%Q → (x <= y)%Q → floor_log2 x ≤ floor_log2 y.
Proof.
  intros Hx Hxy.
  destruct (floor_log2_spec x Hx) as [Hlo _].
  destruct (floor_log2_spec y (Qlt_le_trans _ _ _ Hx Hxy)) as [_ Hhi].
  assert (Hlt : (2 ^ floor_log2 x < 2 ^ (floor_log2 y + 1))%Q).
  { eapply Qle_lt_trans; [exact Hlo|]. by eapply Qle_lt_trans. }
  apply Qpower_lt_compat_l_inv in Hlt; [lia|done].
Qed.

Lemma round_half_even_floor (x : Q) :
  Qfloor x ≤ round_half_even x ≤ Qfloor x + 1.
Proof.
  unfold round_half_even.
  destruct (_ ?= _)%Q; [destruct (Z.even _)|..]; lia.
Qed.

Lemma round_half_even_ge (x : Q) (z : Z) :
  (inject_Z z <= x)%Q → z ≤ round_half_even x.
Proof.
  intros Hz. apply Qfloor_resp_le in Hz. rewrite Qfloor_Z in Hz.
  pose proof (round_half_even_floor x). lia.
Qed.

Lemma round_half_even_le (x : Q) (z : Z) :
  (x <= inject_Z z)%Q → round_half_even x ≤ z.
Proof.
  intros Hz. pose proof Hz as Hf. apply Qfloor_resp_le in Hf. rewrite Qfloor_Z in Hf.
  pose proof (round_half_even_floor x) as Hr.
  destruct (decide (Qfloor x = z)) as [Heq|]; [|lia].
  assert (Hx : (x == inject_Z (Qfloor x))%Q).
  { apply Qle_antisym; [by rewrite Heq|apply Qfloor_le]. }
  unfold round_half_even.
  assert (Hc : (x - inject_Z (Qfloor x) ?= 1 # 2)%Q = Lt).
  { rewrite <- Qlt_alt. rewrite Hx at 1. by ring_simplify. }
  rewrite Hc. lia.
Qed.

Lemma round_half_even_mono (x y : Q) :
  (x <= y)%Q → round_half_even x ≤ round_half_even y.
Proof.
  intros Hxy. pose proof (Qfloor_resp_le _ _ Hxy) as Hf.
  pose proof (round_half_even_floor x) as Hx.
  pose proof (round_half_even_floor y) as Hy.
  destruct (decide (Qfloor x = Qfloor y)) as [Heq|]; [|lia].
  unfold round_half_even. rewrite <- Heq.
  assert (Hfrac : (x - inject_Z (Qfloor x) <= y - inject_Z (Qfloor x))%Q).
  { by apply Qplus_le_l. }
  destruct (Qcompare_spec (x - inject_Z (Qfloor x)) (1 # 2)) as [Hx'|Hx'|Hx'];
    destruct (Qcompare_spec (y - inject_Z (Qfloor x)) (1 # 2)) as [Hy'|Hy'|Hy'];
    try (destruct (Z.even (Qfloor x)); lia); try lia; exfalso.
  - rewrite Hx' in Hfrac. by apply (Qlt_irrefl (1 # 2)), (Qle_lt_trans _ _ _ Hfrac).
  - rewrite Hy' in Hfrac. by apply (Qlt_irrefl (1 # 2)), (Qlt_le_trans _ _ _ Hx').
  - apply (Qlt_irrefl (1 # 2)). eapply Qlt_le_trans; [exact Hx'|].
    eapply Qle_trans; [exact Hfrac|]. by apply Qlt_le_weak.
Qed.

Lemma ulp_exponent_le (x y : Q) :
  (0 < x)%Q → (x <= y)%Q → ulp_exponent x ≤ ulp_exponent y.
Proof.
  intros Hx Hxy. pose proof (floor_log2_le x y Hx Hxy). unfold ulp_exponent. lia.
Qed.

(** Scaled to its last bit, a positive number is below [2^53]. *)
Lemma scaled_lt (x : Q) :
  (0 < x)%Q → (x / 2 ^ ulp_exponent x <= inject_Z (2 ^ 53))%Q.
Proof.
  intros Hx. destruct (floor_log2_spec x Hx) as [_ Hhi].
  apply Qle_shift_div_r; [apply pow2_pos|].
  rewrite pow2_inject by done. rewrite <- Qpower_plus by done.
  apply Qlt_le_weak. eapply Qlt_le_trans; [exact Hhi|].
  apply pow2_le. unfold ulp_exponent. lia.
Qed.

(** Above the subnormal range it is at least [2^52]. *)
Lemma scaled_ge (x : Q) :
  (0 < x)%Q → -1074 < ulp_exponent x →
  (inject_Z (2 ^ 52) <= x / 2 ^ ulp_exponent x)%Q.
Proof.
  intros Hx He. destruct (floor_log2_spec x Hx) as [Hlo _].
  apply Qle_shift_div_l; [apply pow2_pos|].
  rewrite pow2_inject by done. rewrite <- Qpower_plus by done.
  eapply Qle_trans; [|exact Hlo].
  apply pow2_le. unfold ulp_exponent in *. lia.
Qed.

Lemma binary64_pos_mono (x y : Q) :
  (0 < x)%Q → (x <= y)%Q → (binary64_pos x <= binary64_pos y)%Q.
Proof.
  intros Hx Hxy. assert (Hy : (0 < y)%Q) by by eapply Qlt_le_trans.
  pose proof (ulp_exponent_le x y Hx Hxy) as He. unfold binary64_pos.
  destruct (decide (ulp_exponent x = ulp_exponent y)) as [Heq|Hne].
  - rewrite <- Heq. apply Qmult_le_compat_r; [|apply Qlt_le_weak, pow2_pos].
    rewrite <- Zle_Qle. apply round_half_even_mono.
    apply Qmult_le_compat_r; [done|]. apply Qlt_le_weak, Qinv_lt_0_compat, pow2_pos.
  - assert (Hlt : ulp_exponent x < ulp_exponent y) by lia.
    assert (Hsub : -1074 < ulp_exponent y) by (unfold ulp_exponent in *; lia).
    pose proof (round_half_even_le _ _ (scaled_lt x Hx)) as Hrx.
    pose proof (round_half_even_ge _ _ (scaled_ge y Hy Hsub)) as Hry.
    rewrite Zle_Qle in Hrx, Hry.
    eapply Qle_trans;
      [apply Qmult_le_compat_r; [exact Hrx|apply Qlt_le_weak, pow2_pos]|].
    eapply Qle_trans;
      [|apply Qmult_le_compat_r; [exact Hry|apply Qlt_le_weak, pow2_pos]].
    rewrite !pow2_inject by done. rewrite <- !Qpower_plus by done.
    apply pow2_le. lia.
Qed.

Lemma binary64_pos_nonneg (x : Q) : (0 < x)%Q → (0 <= binary64_pos x)%Q.
Proof.
  intros Hx. unfold binary64_pos.
  apply Qmult_le_0_compat; [|apply Qlt_le_weak, pow2_pos].
  change 0%Q with (inject_Z 0). rewrite <- Zle_Qle.
  apply round_half_even_ge. cbn.
  apply Qlt_le_weak, Qlt_shift_div_l; [apply pow2_pos|]. by rewrite Qmult_0_l.
Qed.

Lemma Qnum_sign (x : Q) :
  match Qnum x with
  | Z0 => (x == 0)%Q
  | Zpos _ => (0 < x)%Q
  | Zneg _ => (x < 0)%Q
  end.
Proof. destruct x as [[|n|n] d]; unfold Qeq, Qlt; cbn; lia. Qed.

Lemma binary64_sign (x : Q) :
  ((0 < x)%Q ∧ (binary64 x == binary64_pos x)%Q) ∨
  ((x == 0)%Q ∧ (binary64 x == 0)%Q) ∨
  ((x < 0)%Q ∧ (binary64 x == - binary64_pos (- x))%Q).
Proof.
  pose proof (Qnum_sign x) as Hs. unfold binary64.
  destruct (Qnum x); rewrite Qred_correct.
  - right; left. by split.
  - left. by split.
  - right; right. by split.
Qed.

Lemma binary64_nonneg (x : Q) : (0 <= x)%Q → (0 <= binary64 x)%Q.
Proof.
  intros Hx. destruct (binary64_sign x) as [[Hp ->]|[[_ ->]|[Hn _]]].
  - by apply binary64_pos_nonneg.
  - apply Qle_refl.
  - destruct (Qlt_irrefl 0). by eapply Qle_lt_trans.
Qed.

Lemma binary64_nonpos (x : Q) : (x <= 0)%Q → (binary64 x <= 0)%Q.
Proof.
  intros Hx. destruct (binary64_sign x) as [[Hp _]|[[_ ->]|[Hn ->]]].
  - destruct (Qlt_irrefl 0). by eapply Qlt_le_trans.
  - apply Qle_refl.
  - rewrite <- (Qopp_involutive 0). apply Qopp_le_compat.
    apply binary64_pos_nonneg. rewrite <- (Qopp_involutive 0).
    by apply Qopp_lt_compat.
Qed.

(** Rounding keeps the order. *)
Lemma binary64_mono (x y : Q) : (x <= y)%Q → (binary64 x <= binary64 y)%Q.
Proof.
  intros Hxy.
  destruct (binary64_sign x) as [[Hx ->]|[[Hx Hrx]|[Hx Hrx]]].
  - assert (Hy : (0 < y)%Q) by by eapply Qlt_le_trans.
    destruct (binary64_sign y) as [[_ ->]|[[H0 _]|[Hn _]]].
    + by apply binary64_pos_mono.
    + rewrite H0 in Hy. by destruct (Qlt_irrefl 0).
    + destruct (Qlt_irrefl 0). exact (Qlt_trans _ _ _ Hy Hn).
  - rewrite Hrx. apply binary64_nonneg. by rewrite <- Hx.
  - destruct (binary64_sign y) as [[Hy _]|[[Hy _]|[Hy Hry]]].
    + eapply Qle_trans; [apply binary64_nonpos|apply binary64_nonneg];
        by apply Qlt_le_weak.
    + eapply Qle_trans; [apply binary64_nonpos|apply binary64_nonneg].
      * by apply Qlt_le_weak.
      * rewrite Hy. apply Qle_refl.
    + rewrite Hrx, Hry. apply Qopp_le_compat, binary64_pos_mono.
      * rewrite <- (Qopp_involutive 0). by apply Qopp_lt_compat.
      * by apply Qopp_le_compat.
Qed.

(** Equal rationals round to the same fraction. *)
Lemma binary64_comp (x y : Q) : (x == y)%Q → binary64 x = binary64 y.
Proof.
  intros Hxy.
  assert (Heq : (binary64 x == binary64 y)%Q).
  { apply Qle_antisym; apply binary64_mono; rewrite Hxy; apply Qle_refl. }
  unfold binary64 in *. rewrite !Qred_correct in Heq. by apply Qred_complete.
Qed.

Lemma round_half_even_error (y : Q) :
  (Qabs (inject_Z (round_half_even y) - y) <= 1 # 2)%Q.
Proof.
  pose proof (Qfloor_le y) as Hlo. pose proof (Qlt_floor y) as Hhi.
  rewrite inject_Z_plus in Hhi. unfold round_half_even.
  apply Qabs_Qle_condition.
  destruct (Qcompare_spec (y - inject_Z (Qfloor y)) (1 # 2)) as [He|Hl|Hg];
    [destruct (Z.even (Qfloor y))|..]; rewrite ?inject_Z_plus;
    change (inject_Z 1) with 1%Q in *; split; lra.
Qed.

(** The double is within half a unit of the last place of the number. *)
Lemma binary64_pos_error (x : Q) :
  (Qabs (binary64_pos x - x) <= 2 ^ ulp_exponent x / 2)%Q.
Proof.
  unfold binary64_pos. set (e := ulp_exponent x).
  pose proof (pow2_pos e) as He.
  assert (Hx : (x == x / 2 ^ e * 2 ^ e)%Q).
  { field. intros H0. rewrite H0 in He. by destruct (Qlt_irrefl 0). }
  rewrite Hx at 2.
  assert (Hf : (inject_Z (round_half_even (x / 2 ^ e)) * 2 ^ e - x / 2 ^ e * 2 ^ e
                == (inject_Z (round_half_even (x / 2 ^ e)) - x / 2 ^ e) * 2 ^ e)%Q)
    by ring.
  rewrite Hf, Qabs_Qmult, (Qabs_pos (2 ^ e)) by by apply Qlt_le_weak.
  unfold Qdiv. rewrite (Qmult_comm (2 ^ e)).
  apply Qmult_le_compat_r; [apply round_half_even_error|by apply Qlt_le_weak].
Qed.

Lemma binary64_error (x : Q) :
  (Qabs (binary64 x - x) <= 2 ^ ulp_exponent (Qabs x) / 2)%Q.
Proof.
  destruct x as [[|n|n] d]; unfold binary64; cbn [Qnum]; rewrite Qred_correct.
  - apply Qlt_le_weak.
    assert (H0 : (Qabs (0 - (0 # d)) == 0)%Q) by done. rewrite H0.
    apply Qlt_shift_div_l; [done|]. rewrite Qmult_0_l. apply pow2_pos.
  - apply binary64_pos_error.
  - change (Qabs (Z.neg n # d)) with (Z.pos n # d).
    change (- (Z.neg n # d))%Q with (Z.pos n # d).
    assert (Hf : (- binary64_pos (Z.pos n # d) - (Z.neg n # d)
                  == - (binary64_pos (Z.pos n # d) - (Z.pos n # d)))%Q).
    { change (Z.neg n # d) with (- (Z.pos n # d))%Q. ring. }
    rewrite Hf, Qabs_opp. apply binary64_pos_error.
Qed.

(** ** The methods as functions of the registry *)

Lemma average_total (values : list Q) :
  average values = Ok (mean_or_none values).
Proof. by destruct values. Qed.

Lemma summary_total (state : HaloSessionState) :
  summary state = Ok (summary_of state).
Proof. unfold summary. by rewrite !average_total. Qed.

Lemma contains_lookup (sid : string) (self : HaloEngine) :
  contains sid self =
  (Ok (if sessions self !! sid is Some _ then true else false), self).
Proof. unfold contains. by destruct (sessions self !! sid). Qed.

Lemma start_known (sid : string) (self : HaloEngine) (state : HaloSessionState) :
  sessions self !! sid = Some state → start sid self = (Ok tt, self).
Proof.
  intros Hk. unfold start, mbind, Py_bind. by rewrite contains_lookup, Hk.
Qed.

Lemma start_unknown (sid : string) (self : HaloEngine) :
  sessions self !! sid = None →
  start sid self =
  (Ok tt, {| sessions := <[sid := HaloSessionState_init sid]> (sessions self) |}).
Proof.
  intros Hk. unfold start, mbind, Py_bind. by rewrite contains_lookup, Hk.
Qed.

Lemma start_lookup (sid sid' : string) (self : HaloEngine) :
  sessions (start sid self).2 !! sid' =
  if decide (sid = sid') then Some (state_for sid self)
  else sessions self !! sid'.
Proof.
  unfold state_for. destruct (sessions self !! sid) as [state|] eqn:Hk.
  - rewrite (start_known _ _ _ Hk). case_decide; by subst.
  - rewrite (start_unknown _ _ Hk). cbn. by rewrite lookup_insert.
Qed.

Lemma record_event_total (sid : string) (friction hesitation pace : option Q)
    (self : HaloEngine) :
  let state' := record (state_for sid self) friction hesitation pace in
  record_event sid friction hesitation pace self =
  (Ok (summary_of state'), {| sessions := <[sid := state']> (sessions self) |}).
Proof.
  unfold state_for, record_event, mbind, Py_bind. rewrite contains_lookup.
  destruct (sessions self !! sid) as [state|] eqn:Hk; cbn.
  - unfold getitem. rewrite Hk. unfold lift. by rewrite summary_total.
  - rewrite (start_unknown _ _ Hk). unfold getitem, setitem, lift.
    cbn [sessions]. rewrite lookup_insert_eq. cbn [sessions].
    by rewrite summary_total, insert_insert_eq.
Qed.

Lemma end_total (sid : string) (self : HaloEngine) :
  end_ sid self = (Ok (summary_of <$> sessions self !! sid), self).
Proof.
  unfold end_, mbind, Py_bind. rewrite contains_lookup.
  destruct (sessions self !! sid) as [state|] eqn:Hk; [|done].
  unfold getitem, lift. cbn [negb]. by rewrite Hk, summary_total.
Qed.

(** ** Histories *)

Lemma append_option_list (values : list Q) (v : option Q) :
  append_if_present values v = values ++ option_list v.
Proof. destruct v; cbn; [done|]. by rewrite app_nil_r. Qed.

Section History.
Variable sid : string.

Lemma events_of_cons (c : Call) (cs : list Call) :
  events_of sid (c :: cs) =
  (if is_event_of sid c then 1 else 0) + events_of sid cs.
Proof.
  unfold events_of. rewrite filter_cons.
  destruct (is_event_of sid c); case_decide; try done.
  rewrite length_cons. lia.
Qed.

Lemma recorded_cons (sig : Signal) (c : Call) (cs : list Call) :
  recorded sig sid (c :: cs) = recorded_by sig sid c ++ recorded sig sid cs.
Proof. done. Qed.

Lemma recorded_app (sig : Signal) (cs cs' : list Call) :
  recorded sig sid (cs ++ cs') = recorded sig sid cs ++ recorded sig sid cs'.
Proof.
  induction cs as [|c cs IH]; [done|].
  cbn [app]. by rewrite !recorded_cons, IH, app_assoc.
Qed.

Lemma events_of_app (cs cs' : list Call) :
  events_of sid (cs ++ cs') = events_of sid cs + events_of sid cs'.
Proof.
  induction cs as [|c cs IH]; [done|].
  cbn [app]. rewrite !events_of_cons, IH. lia.
Qed.

Lemma not_creates_no_event (c : Call) :
  creates sid c = false → is_event_of sid c = false.
Proof. by destruct c. Qed.

Lemma not_event_recorded_by (sig : Signal) (c : Call) :
  is_event_of sid c = false → recorded_by sig sid c = [].
Proof.
  destruct c as [|sid' f h p|]; cbn; try done.
  intros Hne%bool_decide_eq_false. by rewrite decide_False.
Qed.

Lemma grown_nil (state : HaloSessionState) : grown sid [] state = state.
Proof.
  destruct state. unfold grown, events_of, recorded. cbn.
  by rewrite Z.add_0_r, !app_nil_r.
Qed.

Lemma grown_app (cs cs' : list Call) (state : HaloSessionState) :
  grown sid (cs ++ cs') state = grown sid cs' (grown sid cs state).
Proof.
  unfold grown. cbn.
  by rewrite events_of_app, !recorded_app, Z.add_assoc, !app_assoc.
Qed.

Lemma grown_cons (c : Call) (cs : list Call) (state : HaloSessionState) :
  grown sid (c :: cs) state = grown sid cs (grown sid [c] state).
Proof. apply (grown_app [c] cs). Qed.

Lemma grown_skip (c : Call) (cs : list Call) (state : HaloSessionState) :
  is_event_of sid c = false → grown sid (c :: cs) state = grown sid cs state.
Proof.
  intros Hc. unfold grown.
  rewrite events_of_cons, !recorded_cons, Hc.
  by rewrite !(not_event_recorded_by _ _ Hc).
Qed.

Lemma grown_no_event (c : Call) (state : HaloSessionState) :
  is_event_of sid c = false → grown sid [c] state = state.
Proof. intros Hc. by rewrite grown_skip, grown_nil. Qed.

Lemma grown_event (friction hesitation pace : option Q)
    (state : HaloSessionState) :
  grown sid [CallRecordEvent sid friction hesitation pace] state =
  record state friction hesitation pace.
Proof.
  unfold grown, record. rewrite events_of_cons, !recorded_cons.
  cbn [is_event_of recorded_by]. rewrite bool_decide_eq_true_2 by done.
  destruct (decide (sid = sid)); [|done].
  unfold events_of, recorded. cbn. by rewrite !app_nil_r, !append_option_list.
Qed.

Lemma after_history_cons (c : Call) (cs : list Call)
    (o : option HaloSessionState) :
  after_history sid cs (after_history sid [c] o) =
  after_history sid (c :: cs) o.
Proof.
  destruct o as [state|]; cbn [after_history].
  - by rewrite (grown_cons c cs).
  - cbn [existsb]. rewrite orb_false_r.
    destruct (creates sid c) eqn:Hc; cbn [after_history orb].
    + by rewrite (grown_cons c cs).
    + destruct (existsb (creates sid) cs); [|done].
      by rewrite (grown_skip _ _ _ (not_creates_no_event _ Hc)).
Qed.

Lemma call_ok (c : Call) (self : HaloEngine) : (call c self).1 = Ok tt.
Proof.
  destruct c as [sid'|sid' f h p|sid']; unfold call, mbind, Py_bind.
  - destruct (sessions self !! sid') as [state|] eqn:Hk.
    + by rewrite (start_known _ _ _ Hk).
    + by rewrite (start_unknown _ _ Hk).
  - by rewrite record_event_total.
  - by rewrite end_total.
Qed.

Lemma call_lookup (c : Call) (self : HaloEngine) :
  sessions (call c self).2 !! sid =
  after_history sid [c] (sessions self !! sid).
Proof.
  destruct c as [sid'|sid' f h p|sid']; unfold call, mbind, Py_bind.
  - rewrite start_lookup. unfold state_for, after_history. cbn.
    case_decide as Hs.
    + subst sid'. rewrite bool_decide_eq_true_2 by done.
      destruct (sessions self !! sid); cbn; by rewrite grown_no_event.
    + rewrite bool_decide_eq_false_2 by done.
      destruct (sessions self !! sid); cbn; by rewrite ?grown_no_event.
  - rewrite record_event_total. unfold mret, Py_ret.
    cbn [snd sessions]. rewrite lookup_insert.
    unfold state_for, after_history. cbn [existsb creates].
    case_decide as Hs.
    + subst sid'. rewrite bool_decide_eq_true_2 by done.
      destruct (sessions self !! sid); cbn [default orb];
        by rewrite grown_event.
    + rewrite bool_decide_eq_false_2 by done.
      destruct (sessions self !! sid); cbn [orb]; [|done].
      rewrite grown_no_event; [done|].
      cbn. by rewrite bool_decide_eq_false_2.
  - rewrite end_total. unfold mret, Py_ret. cbn [snd]. unfold after_history. cbn [existsb creates orb].
    destruct (sessions self !! sid); by rewrite ?grown_no_event.
Qed.

(** A history never fails, and the entry of a session after it is read
    off the calls of the history. *)
Lemma run_total (cs : list Call) (self : HaloEngine) :
  (run cs self).1 = Ok tt ∧
  sessions (run cs self).2 !! sid =
  after_history sid cs (sessions self !! sid).
Proof.
  revert self. induction cs as [|c cs IH]; intros self.
  - split; [done|]. cbn. destruct (sessions self !! sid); cbn; [|done].
    by rewrite grown_nil.
  - cbn [run]. unfold mbind, Py_bind.
    pose proof (call_ok c self) as Hok.
    pose proof (call_lookup c self) as Hl.
    destruct (call c self) as [r self1]. cbn in Hok, Hl. subst r.
    destruct (IH self1) as [IH1 IH2]. split; [done|].
    by rewrite IH2, Hl, after_history_cons.
Qed.
End History.

Lemma run_app (cs cs' : list Call) (self : HaloEngine) :
  run (cs ++ cs') self = run cs' (run cs self).2.
Proof.
  revert self. induction cs as [|c cs IH]; intros self; [done|].
  cbn [app run]. unfold mbind, Py_bind.
  pose proof (call_ok c self) as Hok.
  destruct (call c self) as [r self1]. cbn in Hok. subst r. apply IH.
Qed.

Lemma run_init_lookup (sid : string) (cs : list Call) :
  sessions (run cs HaloEngine_init).2 !! sid =
  if existsb (creates sid) cs
  then Some (grown sid cs (HaloSessionState_init sid))
  else None.
Proof. by rewrite (proj2 (run_total sid cs HaloEngine_init)). Qed.

(** ** Averages *)

Lemma inject_length_nonzero (x : Q) (values : list Q) :
  ¬ (inject_Z (Z.of_nat (length (x :: values))) == 0)%Q.
Proof. unfold Qeq. cbn. lia. Qed.

Lemma exact_mean_is_mean (x : Q) (values : list Q) :
  is_mean (total (x :: values) / inject_Z (Z.of_nat (length (x :: values))))
    (x :: values).
Proof.
  unfold is_mean. rewrite Qmult_comm. apply Qmult_div_r, inject_length_nonzero.
Qed.

Lemma statistics_mean_is_mean (x : Q) (values : list Q) :
  ∃ m, statistics_mean (x :: values) = Ok m ∧ is_rounded_mean m (x :: values).
Proof.
  eexists. split; [reflexivity|]. eexists. split; [apply exact_mean_is_mean|done].
Qed.

(** A rounded mean is within half a unit in the last place of the mean. *)
Lemma rounded_mean_error (m : Q) (values : list Q) :
  is_rounded_mean m values →
  ∃ mu, is_mean mu values ∧
        (Qabs (m - mu) <= 2 ^ ulp_exponent (Qabs mu) / 2)%Q.
Proof. intros (mu & Hmu & ->). exists mu. split; [done|apply binary64_error]. Qed.

(** The exact mean of a sequence is one rational, up to the fraction that
    writes it; so is its rounding. *)
Lemma is_rounded_mean_unique (m m' : Q) (x : Q) (values : list Q) :
  is_rounded_mean m (x :: values) → is_rounded_mean m' (x :: values) → m = m'.
Proof.
  intros (mu & Hmu & ->) (mu' & Hmu' & ->). apply binary64_comp.
  unfold is_mean in *.
  apply (Qmult_inj_r _ _ (inject_Z (Z.of_nat (length (x :: values)))));
    [apply inject_length_nonzero|]. by rewrite Hmu, Hmu'.
Qed.

Lemma average_of_summary_of (sig : Signal) (state : HaloSessionState) :
  average_of sig (summary_of state) = mean_or_none (values_of sig state).
Proof. by destruct sig. Qed.

Lemma summary_of_reports (sig : Signal) (state : HaloSessionState) :
  reports sig (summary_of state) (values_of sig state).
Proof.
  unfold reports. rewrite average_of_summary_of.
  destruct (values_of sig state) as [|x values]; [done|].
  destruct (statistics_mean_is_mean x values) as (m & Hm & Hmean).
  exists m. split; [|done]. by injection Hm as <-.
Qed.

Lemma values_of_grown_init (sig : Signal) (sid : string) (cs : list Call) :
  values_of sig (grown sid cs (HaloSessionState_init sid)) = recorded sig sid cs.
Proof. by destruct sig. Qed.

Lemma record_event_post (sid : string) (friction hesitation pace : option Q)
    (self : HaloEngine) :
  ∃ state' self',
    record_event sid friction hesitation pace self = (Ok (summary_of state'), self') ∧
    sessions self' !! sid = Some state' ∧
    self' = (call (CallRecordEvent sid friction hesitation pace) self).2.
Proof.
  eexists _, _. split; [apply record_event_total|]. split.
  - cbn. by rewrite lookup_insert_eq.
  - unfold call, mbind, Py_bind. by rewrite record_event_total.
Qed.

(** C1, as it is stated, fails: after two events with the friction values
    [0.1] and [0.2], the average that [end] reports is not their mean
    ([0.15000000000000002], the double next to it). *)
Lemma average_is_not_the_exact_mean :
  ∃ s, (end_ "s1" (run history_tenths HaloEngine_init).2).1 = Ok (Some s) ∧
       recorded Friction "s1" history_tenths = [float_0_1; float_0_2] ∧
       average_of Friction s = Some (1351079888211149 # 9007199254740992)%Q ∧
       ¬ reports_exactly Friction s (recorded Friction "s1" history_tenths).
Proof.
  eexists. split; [reflexivity|]. split; [reflexivity|]. split; [reflexivity|].
  intros (m & Hm & Hmean). vm_compute in Hm. injection Hm as <-.
  unfold is_mean, Qeq in Hmean. vm_compute in Hmean. discriminate.
Qed.

(** C1, amended.  After any history of calls on the engine, and for each
    of the three signals: the summary that [end] returns for a session
    reports the unweighted arithmetic mean of all the values supplied for
    that signal to that session so far, rounded once to the nearest
    double, or the marker [None] (which is not a number) when there is
    none; [end] answers [None] only for a session that no call has
    created; and the summary that a further [record_event] returns reports
    the same over the history extended by that event. *)
Theorem average_is_rounded_mean_of_recorded_values
    (cs : list Call) (sid : string) (sig : Signal) :
  let self := (run cs HaloEngine_init).2 in
  match (end_ sid self).1 with
  | Ok (Some s) => reports sig s (recorded sig sid cs)
  | Ok None => existsb (creates sid) cs = false
  | Raise _ => False
  end ∧
  ∀ friction hesitation pace,
    ∃ s, (record_event sid friction hesitation pace self).1 = Ok s ∧
         reports sig s
           (recorded sig sid (cs ++ [CallRecordEvent sid friction hesitation pace])).
Proof.
  intros self. split.
  - rewrite end_total. cbn [fst]. unfold self. rewrite run_init_lookup.
    destruct (existsb (creates sid) cs); [|done]. cbn [fmap option_fmap option_map].
    rewrite <- (values_of_grown_init sig sid cs). apply summary_of_reports.
  - intros friction hesitation pace.
    destruct (record_event_post sid friction hesitation pace self)
      as (state' & self' & Hrun & Hlook & Hself').
    exists (summary_of state'). rewrite Hrun. split; [done|].
    assert (Hstate : sessions (run (cs ++ [CallRecordEvent sid friction hesitation pace])
                       HaloEngine_init).2 !! sid = Some state').
    { rewrite run_app. fold self. cbn [run]. unfold mbind, Py_bind.
      pose proof (call_ok (CallRecordEvent sid friction hesitation pace) self) as Hok.
      destruct (call _ self) as [r self1]. cbn in Hok, Hself'. by subst. }
    rewrite run_init_lookup, existsb_app in Hstate. cbn in Hstate.
    rewrite bool_decide_eq_true_2, orb_true_r in Hstate by done.
    injection Hstate as <-.
    rewrite <- (values_of_grown_init sig sid). apply summary_of_reports.
Qed.

(** ** Counting events *)

Lemma state_for_record_event (sid : string) (friction hesitation pace : option Q)
    (self : HaloEngine) :
  state_for sid (record_event sid friction hesitation pace self).2 =
  record (state_for sid self) friction hesitation pace.
Proof.
  rewrite record_event_total. unfold state_for at 1. cbn [snd sessions].
  by rewrite lookup_insert_eq.
Qed.

Lemma record_events_counts (sid : string) (evs : list Event) (self : HaloEngine) :
  ∃ ss, (record_events sid evs self).1 = Ok ss ∧
        length ss = length evs ∧
        ∀ (i : nat) (s : Summary),
          ss !! i = Some s →
          events_count s = event_count (state_for sid self) + Z.of_nat i + 1.
Proof.
  revert self. induction evs as [|[[friction hesitation] pace] evs IH]; intros self.
  - exists []. by repeat split.
  - cbn [record_events]. unfold mbind, Py_bind.
    pose proof (state_for_record_event sid friction hesitation pace self) as Hst.
    rewrite record_event_total in Hst |- *. cbn [snd] in Hst.
    match goal with |- context [record_events sid evs ?h] => set (self1 := h) in * end.
    destruct (IH self1) as (ss & Hss & Hlen & Hcount).
    destruct (record_events sid evs self1) as [r self2]. cbn [fst] in Hss. subst r.
    eexists (_ :: ss). split; [reflexivity|]. split; [cbn; by rewrite Hlen|].
    intros [|i] s Hi; cbn in Hi.
    + injection Hi as <-. cbn. lia.
    + rewrite (Hcount i s Hi), Hst. cbn [event_count record]. lia.
Qed.

(** C2.  On a fresh session, whatever the signals of the events (present or
    [None]), [N] successive [record_event] calls all return, and the
    summary returned by the [i]-th call has [events_count] equal to [i]; so
    after the [N]-th call it is [N]. *)
Theorem events_count_after_n_calls
    (sid : string) (evs : list Event) (self : HaloEngine) :
  fresh sid self →
  ∃ ss, (record_events sid evs self).1 = Ok ss ∧
        length ss = length evs ∧
        (∀ (i : nat) (s : Summary), ss !! i = Some s → events_count s = Z.of_nat (S i)) ∧
        (∀ s, last ss = Some s → events_count s = Z.of_nat (length evs)).
Proof.
  intros Hfresh.
  destruct (record_events_counts sid evs self) as (ss & Hss & Hlen & Hcount).
  assert (H0 : event_count (state_for sid self) = 0).
  { unfold fresh in Hfresh. unfold state_for.
    destruct (sessions self !! sid); [apply Hfresh|done]. }
  assert (Hall : ∀ (i : nat) (s : Summary),
             ss !! i = Some s → events_count s = Z.of_nat (S i)).
  { intros i s Hi. rewrite (Hcount i s Hi), H0. lia. }
  exists ss. repeat split; try done.
  intros s Hlast. rewrite last_lookup in Hlast.
  rewrite (Hall _ _ Hlast), <- Hlen.
  destruct ss; [done|]. cbn. done.
Qed.

Lemma events_count_after_n_calls_witness :
  fresh "s1" HaloEngine_init ∧
  ∃ ss, (record_events "s1" three_events HaloEngine_init).1 = Ok ss ∧
        length ss = length three_events ∧
        (∀ (i : nat) (s : Summary), ss !! i = Some s → events_count s = Z.of_nat (S i)) ∧
        (∀ s, last ss = Some s → events_count s = Z.of_nat (length three_events)).
Proof.
  split; [exact I|].
  apply (events_count_after_n_calls "s1" three_events HaloEngine_init). exact I.
Defined.

(** ** Failures *)

(** C3.  [end] answers [None] (the [NotFound] of the specification) exactly
    when the session is not in the registry, and the current summary of the
    session when it is; no method of the engine raises an exception:
    [start] and [record_event] always return, and [end] never raises. *)
Theorem end_not_found_iff_unknown (self : HaloEngine) (sid : string) :
  ((end_ sid self).1 = Ok None ↔ sessions self !! sid = None) ∧
  (∀ state, sessions self !! sid = Some state →
            summary state = Ok (summary_of state) ∧
            (end_ sid self).1 = Ok (Some (summary_of state))) ∧
  (∀ e, (end_ sid self).1 ≠ Raise e) ∧
  (start sid self).1 = Ok tt ∧
  (∀ friction hesitation pace,
     ∃ s, (record_event sid friction hesitation pace self).1 = Ok s).
Proof.
  rewrite end_total. cbn [fst]. split; [|split; [|split; [|split]]].
  - split; [|by intros ->].
    destruct (sessions self !! sid); [discriminate|done].
  - intros state Hk. split; [apply summary_total|by rewrite Hk].
  - done.
  - apply (call_ok (CallStart sid)).
  - intros. rewrite record_event_total. by eexists.
Qed.

Lemma end_not_found_iff_unknown_witness :
  sessions engine_s1 !! "s1" = Some state_s1 ∧
  sessions engine_s1 !! "s2" = None ∧
  (end_ "s1" engine_s1).1 = Ok (Some (summary_of state_s1)) ∧
  (end_ "s2" engine_s1).1 = Ok None.
Proof.
  split; [reflexivity|]. split; [reflexivity|]. split.
  - destruct (end_not_found_iff_unknown engine_s1 "s1") as (_ & Hknown & _).
    apply (Hknown state_s1). reflexivity.
  - destruct (end_not_found_iff_unknown engine_s1 "s2") as ([_ Hunknown] & _).
    apply Hunknown. reflexivity.
Defined.

(** ** Implicit creation *)

(** C4.  [record_event] on a session unknown to the registry behaves as
    [start] followed by [record_event]: [start] puts an empty accumulator
    under the key, which then counts one event and receives each signal
    that is present; the registry is otherwise unchanged, and the summary
    returned has [events_count] equal to 1. *)
Theorem record_event_creates_unknown_session
    (self : HaloEngine) (sid : string) (friction hesitation pace : option Q) :
  sessions self !! sid = None →
  let state' := record (HaloSessionState_init sid) friction hesitation pace in
  sessions (start sid self).2 !! sid = Some (HaloSessionState_init sid) ∧
  record_event sid friction hesitation pace self =
    record_event sid friction hesitation pace (start sid self).2 ∧
  record_event sid friction hesitation pace self =
    (Ok (summary_of state'), {| sessions := <[sid := state']> (sessions self) |}) ∧
  event_count state' = 1 ∧
  (∀ sig, values_of sig state' = option_list (supplied sig friction hesitation pace)) ∧
  events_count (summary_of state') = 1.
Proof.
  intros Hk state'. split; [|split; [|split; [|split; [|split]]]].
  - rewrite start_lookup. rewrite decide_True by done.
    unfold state_for. by rewrite Hk.
  - rewrite !record_event_total. unfold state_for.
    rewrite start_lookup, decide_True by done. unfold state_for. rewrite Hk.
    rewrite (start_unknown _ _ Hk). cbn [snd sessions default].
    by rewrite insert_insert_eq.
  - rewrite record_event_total. unfold state_for. by rewrite Hk.
  - done.
  - intros sig. unfold state'.
    destruct sig; cbn; by rewrite append_option_list.
  - done.
Qed.

Lemma record_event_creates_unknown_session_witness :
  sessions HaloEngine_init !! "s1" = None ∧
  let state' := record (HaloSessionState_init "s1") (Some (4 # 10)%Q) None None in
  sessions (start "s1" HaloEngine_init).2 !! "s1" = Some (HaloSessionState_init "s1") ∧
  record_event "s1" (Some (4 # 10)%Q) None None HaloEngine_init =
    record_event "s1" (Some (4 # 10)%Q) None None (start "s1" HaloEngine_init).2 ∧
  record_event "s1" (Some (4 # 10)%Q) None None HaloEngine_init =
    (Ok (summary_of state'),
     {| sessions := <[("s1" : string) := state']> (sessions HaloEngine_init) |}) ∧
  event_count state' = 1 ∧
  (∀ sig, values_of sig state' = option_list (supplied sig (Some (4 # 10)%Q) None None)) ∧
  events_count (summary_of state') = 1.
Proof.
  split; [reflexivity|].
  apply (record_event_creates_unknown_session HaloEngine_init "s1"). reflexivity.
Defined.

(** ** [end] only reads *)

(** C5.  For a session of the registry, [end] returns its summary and
    leaves the engine as it was, so the session is still there with the
    same accumulator, and a second [end] right after the first returns the
    same summary. *)
Theorem end_leaves_registry_unchanged
    (self : HaloEngine) (sid : string) (state : HaloSessionState) :
  sessions self !! sid = Some state →
  end_ sid self = (Ok (Some (summary_of state)), self) ∧
  sessions (end_ sid self).2 !! sid = Some state ∧
  (a ← end_ sid; b ← end_ sid; mret (a, b)) self =
    (Ok (Some (summary_of state), Some (summary_of state)), self).
Proof.
  intros Hk.
  assert (Hend : end_ sid self = (Ok (Some (summary_of state)), self)).
  { by rewrite end_total, Hk. }
  split; [done|]. split; [by rewrite Hend|].
  unfold mbind, Py_bind. by rewrite !Hend.
Qed.

Lemma end_leaves_registry_unchanged_witness :
  sessions engine_s1 !! "s1" = Some state_s1 ∧
  end_ "s1" engine_s1 = (Ok (Some (summary_of state_s1)), engine_s1) ∧
  sessions (end_ "s1" engine_s1).2 !! "s1" = Some state_s1 ∧
  (a ← end_ "s1"; b ← end_ "s1"; mret (a, b)) engine_s1 =
    (Ok (Some (summary_of state_s1), Some (summary_of state_s1)), engine_s1).
Proof.
  split; [reflexivity|].
  apply (end_leaves_registry_unchanged engine_s1 "s1" state_s1). reflexivity.
Defined.

(** ** [start] keeps what is there *)

(** C6.  [start] on a session of the registry returns and leaves the
    engine, with all its accumulators, exactly as it was; in particular a
    second [start] changes nothing, whatever the engine was before the
    first one. *)
Theorem start_existing_is_noop
    (self : HaloEngine) (sid : string) (state : HaloSessionState) :
  sessions self !! sid = Some state →
  start sid self = (Ok tt, self) ∧
  (start sid;; start sid) self = (Ok tt, self) ∧
  ∀ self0, start sid (start sid self0).2 = (Ok tt, (start sid self0).2).
Proof.
  intros Hk. pose proof (start_known _ _ _ Hk) as Hstart.
  split; [done|]. split.
  - unfold mbind, Py_bind. by rewrite !Hstart.
  - intros self0.
    apply (start_known sid _ (state_for sid self0)).
    rewrite start_lookup. by rewrite decide_True.
Qed.

Lemma start_existing_is_noop_witness :
  sessions engine_s1 !! "s1" = Some state_s1 ∧
  start "s1" engine_s1 = (Ok tt, engine_s1) ∧
  (start "s1";; start "s1") engine_s1 = (Ok tt, engine_s1) ∧
  ∀ self0, start "s1" (start "s1" self0).2 = (Ok tt, (start "s1" self0).2).
Proof.
  split; [reflexivity|].
  apply (start_existing_is_noop engine_s1 "s1" state_s1). reflexivity.
Defined.

(** ** The rolling summary *)

Lemma values_of_record (sig : Signal) (state : HaloSessionState)
    (friction hesitation pace : option Q) :
  values_of sig (record state friction hesitation pace) =
  values_of sig state ++ option_list (supplied sig friction hesitation pace).
Proof. destruct sig; cbn; apply append_option_list. Qed.

(** C7.  [record_event] returns the summary of the accumulator as the
    event has left it.  With the accumulator of the session before the
    call (a new one if the session was unknown): the registry then holds
    for the session one event more and, for each signal, the values it had
    followed by the value of this event if it carries one; the summary
    returned counts that one event more and reports, for each signal, the
    rounded mean of those values, this event's included, or [None] when
    there are none; and [end] called right after returns that same summary
    and changes nothing. *)
Theorem record_event_returns_post_update_summary
    (self : HaloEngine) (sid : string) (friction hesitation pace : option Q) :
  let before := state_for sid self in
  let state' := record before friction hesitation pace in
  ∃ s self',
    record_event sid friction hesitation pace self = (Ok s, self') ∧
    sessions self' !! sid = Some state' ∧
    event_count state' = event_count before + 1 ∧
    (∀ sig, values_of sig state' =
            values_of sig before ++ option_list (supplied sig friction hesitation pace)) ∧
    summary state' = Ok s ∧
    events_count s = event_count before + 1 ∧
    (∀ sig, reports sig s
              (values_of sig before ++
               option_list (supplied sig friction hesitation pace))) ∧
    end_ sid self' = (Ok (Some s), self') ∧
    (s' ← record_event sid friction hesitation pace; e ← end_ sid; mret (s', e)) self =
      (Ok (s, Some s), self').
Proof.
  intros before state'. eexists _, _.
  split; [apply record_event_total|].
  assert (Hk : sessions {| sessions := <[sid := state']> (sessions self) |} !! sid
               = Some state') by apply lookup_insert_eq.
  split; [done|]. split; [done|].
  split; [intros sig; apply values_of_record|].
  split; [apply summary_total|]. split; [done|].
  split.
  { intros sig. fold before. fold state'.
    rewrite <- (values_of_record sig before). apply summary_of_reports. }
  assert (Hend : end_ sid {| sessions := <[sid := state']> (sessions self) |}
                 = (Ok (Some (summary_of state')),
                    {| sessions := <[sid := state']> (sessions self) |})).
  { by rewrite end_total, Hk. }
  split; [done|].
  unfold mbind, Py_bind. rewrite record_event_total. fold before. fold state'.
  by rewrite Hend.
Qed.

(** An instance: a third event on the session of [engine_s1], whose
    friction values were [0.4] and [0.6] as written. *)
Example record_event_on_engine_s1 :
  ∃ s,
    (record_event "s1" (Some 1%Q) None None engine_s1).1 = Ok s ∧
    events_count s = 3 ∧
    friction_values <$>
      sessions (record_event "s1" (Some 1%Q) None None engine_s1).2 !! "s1"
      = Some [(4 # 10)%Q; (6 # 10)%Q; 1%Q] ∧
    average_friction s = Some (binary64 (2 # 3)) ∧
    average_hesitation s = Some (binary64 (2 # 10)) ∧
    average_pace s = Some (binary64 (9 # 10)).
Proof. eexists. split; [vm_compute; reflexivity|]. repeat split; reflexivity. Qed.

(** ** Invariants of the registry *)

Section Invariants.
Variable sid : string.

Lemma values_of_grown (sig : Signal) (cs : list Call) (state : HaloSessionState) :
  values_of sig (grown sid cs state) = values_of sig state ++ recorded sig sid cs.
Proof. by destruct sig. Qed.

Lemma recorded_by_length (sig : Signal) (c : Call) :
  Z.of_nat (length (recorded_by sig sid c)) ≤ (if is_event_of sid c then 1 else 0).
Proof.
  destruct c as [|sid' f h p|]; cbn; try done.
  destruct (decide (sid' = sid)) as [->|Hne].
  - rewrite bool_decide_eq_true_2 by done.
    destruct (supplied sig f h p); cbn; lia.
  - by rewrite bool_decide_eq_false_2.
Qed.

Lemma recorded_length (sig : Signal) (cs : list Call) :
  Z.of_nat (length (recorded sig sid cs)) ≤ events_of sid cs.
Proof.
  induction cs as [|c cs IH]; [done|].
  rewrite recorded_cons, events_of_cons, length_app.
  pose proof (recorded_by_length sig c). lia.
Qed.

(** A call supplies a value of [sig] to [sid] only as a [record_event] on
    [sid] that carries the signal. *)
Lemma recorded_by_inv (sig : Signal) (c : Call) :
  recorded_by sig sid c ≠ [] →
  ∃ friction hesitation pace v,
    c = CallRecordEvent sid friction hesitation pace ∧
    supplied sig friction hesitation pace = Some v ∧
    recorded_by sig sid c = [v].
Proof.
  destruct c as [|sid' f h p|]; cbn; try done.
  destruct (decide (sid' = sid)) as [->|Hne]; [|done].
  destruct (supplied sig f h p) as [v|] eqn:Hv; [|done].
  intros _. by exists f, h, p, v.
Qed.
End Invariants.

(** C8.  After any history of [start], [record_event] and [end] calls on
    the engine, every session of the registry has an [event_count] that is
    at least the length of each of its three sequences; a sequence holds
    exactly the values supplied for its signal, in order, with no entry for
    an event whose signal was [None]; and a further call extends a sequence
    only if it is a [record_event] on that session carrying the signal, by
    that one value. *)
Theorem event_count_bounds_sequences
    (cs : list Call) (sid : string) (state : HaloSessionState) (sig : Signal) :
  sessions (run cs HaloEngine_init).2 !! sid = Some state →
  Z.of_nat (length (values_of sig state)) ≤ event_count state ∧
  event_count state = events_of sid cs ∧
  values_of sig state = recorded sig sid cs ∧
  ∀ c, ∃ state',
    sessions (call c (run cs HaloEngine_init).2).2 !! sid = Some state' ∧
    event_count state' = event_count state + (if is_event_of sid c then 1 else 0) ∧
    values_of sig state' = values_of sig state ++ recorded_by sig sid c ∧
    (values_of sig state' ≠ values_of sig state →
     ∃ friction hesitation pace v,
       c = CallRecordEvent sid friction hesitation pace ∧
       supplied sig friction hesitation pace = Some v ∧
       values_of sig state' = values_of sig state ++ [v]).
Proof.
  intros Hk. pose proof Hk as Hinit. rewrite run_init_lookup in Hinit.
  destruct (existsb (creates sid) cs); [|done]. injection Hinit as Hstate.
  assert (Hvalues : values_of sig state = recorded sig sid cs).
  { by rewrite <- Hstate, values_of_grown_init. }
  assert (Hcount : event_count state = events_of sid cs) by by rewrite <- Hstate.
  split; [|split; [done|split; [done|]]].
  { rewrite Hvalues, Hcount. apply recorded_length. }
  intros c. exists (grown sid [c] state).
  assert (Hgrow : values_of sig (grown sid [c] state)
                  = values_of sig state ++ recorded_by sig sid c).
  { by rewrite values_of_grown, recorded_cons, app_nil_r. }
  split; [by rewrite call_lookup, Hk|]. split; [|split; [done|]].
  - cbn [grown event_count]. rewrite events_of_cons. unfold events_of. cbn. lia.
  - rewrite Hgrow. intros Hne.
    destruct (recorded_by_inv sid sig c) as (f & h & p & v & Hc & Hv & Hrec).
    { intros Hnil. apply Hne. by rewrite Hnil, app_nil_r. }
    exists f, h, p, v. by rewrite Hrec.
Qed.

Lemma event_count_bounds_sequences_witness :
  sessions engine_s1 !! "s1" = Some state_s1 ∧
  Z.of_nat (length (values_of Pace state_s1)) ≤ event_count state_s1.
Proof.
  split; [reflexivity|].
  apply (event_count_bounds_sequences history_s1 "s1" state_s1 Pace).
  reflexivity.
Defined.

(** C10.  After any history of [start], [record_event] and [end] calls on
    the engine, started empty, the accumulator stored under a key of the
    registry has that key as its [session_id]. *)
Theorem registry_key_consistent
    (cs : list Call) (k : string) (state : HaloSessionState) :
  sessions (run cs HaloEngine_init).2 !! k = Some state →
  session_id state = k.
Proof.
  rewrite run_init_lookup.
  destruct (existsb (creates k) cs); [|done]. by intros [= <-].
Qed.

Lemma registry_key_consistent_witness :
  sessions engine_s1 !! "s1" = Some state_s1 ∧ session_id state_s1 = "s1".
Proof.
  split; [reflexivity|].
  apply (registry_key_consistent history_s1 "s1" state_s1).
  reflexivity.
Defined.

(** ** Calls served in any order *)

(** The methods of the engine take no lock and contain no suspension
    point.  What follows is only about the orders in which whole calls are
    served, one after the other; it says nothing about calls whose
    statements interleave. *)

Lemma total_Permutation (values values' : list Q) :
  values ≡ₚ values' → (total values == total values')%Q.
Proof.
  induction 1 as [|x l l' _ IH|x y l|l l' l'' _ IH1 _ IH2]; cbn.
  - reflexivity.
  - by rewrite IH.
  - ring.
  - by rewrite IH1.
Qed.

Lemma recorded_friction_calls (sid : string) (values : list Q) :
  recorded Friction sid (friction_calls sid values) = values.
Proof.
  induction values as [|v values IH]; [done|].
  unfold friction_calls. rewrite fmap_cons, recorded_cons. cbn [recorded_by].
  rewrite decide_True by done. cbn. by f_equal.
Qed.

Lemma events_of_friction_calls (sid : string) (values : list Q) :
  events_of sid (friction_calls sid values) = Z.of_nat (length values).
Proof.
  induction values as [|v values IH]; [done|].
  unfold friction_calls. rewrite fmap_cons, events_of_cons. cbn [is_event_of].
  rewrite bool_decide_eq_true_2 by done. fold (friction_calls sid values).
  rewrite IH, length_cons. lia.
Qed.

(** X4.  Whatever the order [served] in which [M] calls that carry the friction
    values [values] are served on a new engine, [end] then returns a summary
    that counts [M] events and reports the mean of [values] rounded to the
    nearest double, the same double in every order. *)
Lemma friction_calls_any_order (sid : string) (values served : list Q) :
  values ≡ₚ served →
  values ≠ [] →
  ∃ s m, (end_ sid (run (friction_calls sid served) HaloEngine_init).2).1 = Ok (Some s) ∧
         events_count s = Z.of_nat (length values) ∧
         average_friction s = Some m ∧
         is_rounded_mean m values ∧
         m = binary64 (total values / inject_Z (Z.of_nat (length values))).
Proof.
  intros Hperm Hne.
  assert (Hcreated : existsb (creates sid) (friction_calls sid served) = true).
  { destruct served as [|v served].
    - apply Permutation_nil_r in Hperm. done.
    - cbn. by rewrite bool_decide_eq_true_2. }
  rewrite end_total, run_init_lookup, Hcreated. cbn [fst fmap option_fmap option_map].
  pose proof (summary_of_reports Friction
    (grown sid (friction_calls sid served) (HaloSessionState_init sid))) as Hrep.
  rewrite values_of_grown_init, recorded_friction_calls in Hrep.
  unfold reports in Hrep. destruct served as [|v served].
  { apply Permutation_nil_r in Hperm. done. }
  destruct Hrep as (m & Hm & mu & Hmean & ->). eexists _, _. split; [done|].
  split; [|split; [done|]].
  - cbn [summary_of events_count grown event_count HaloSessionState_init].
    rewrite events_of_friction_calls. by rewrite (Permutation_length Hperm).
  - assert (Hrounded : is_rounded_mean (binary64 mu) values).
    { exists mu. split; [|done]. unfold is_mean in *.
      by rewrite (Permutation_length Hperm), (total_Permutation _ _ Hperm). }
    split; [done|]. destruct values as [|x values]; [done|].
    apply (is_rounded_mean_unique _ _ x values Hrounded).
    eexists. split; [apply exact_mean_is_mean|done].
Qed.

(** ** The scenario of the specification, run *)

Example scenario_summaries :
  (scenario HaloEngine_init).1 =
  Ok ({| events_count := 1;
         average_friction := Some float_0_4;
         average_hesitation := Some float_0_2;
         average_pace := None |},
      {| events_count := 2;
         average_friction := Some (1 # 2)%Q;
         average_hesitation := Some float_0_2;
         average_pace := Some float_0_9 |},
      Some {| events_count := 2;
              average_friction := Some (1 # 2)%Q;
              average_hesitation := Some float_0_2;
              average_pace := Some float_0_9 |}).
Proof. reflexivity. Qed.

Example scenario_average_friction : is_mean (1 # 2)%Q [float_0_4; float_0_6].
Proof. reflexivity. Qed.

Example literals_are_doubles :
  binary64 (1 # 10) = float_0_1 ∧ binary64 (2 # 10) = float_0_2 ∧
  binary64 (4 # 10) = float_0_4 ∧ binary64 (6 # 10) = float_0_6 ∧
  binary64 (9 # 10) = float_0_9.
Proof. repeat split; reflexivity. Qed.

Example end_unknown_session : (end_ "s2" engine_s1).1 = Ok None.
Proof. reflexivity. Qed.

Example end_without_pace :
  (start "s1";; record_event "s1" (Some 1%Q) None None;; end_ "s1") HaloEngine_init
  = (Ok (Some {| events_count := 1;
                 average_friction := Some 1%Q;
                 average_hesitation := None;
                 average_pace := None |}),
     {| sessions := {[ ("s1" : string) :=
          {| session_id := "s1"; event_count := 1; friction_values := [1%Q];
             hesitation_values := []; pace_values := [] |} ]} |}).
Proof. reflexivity. Qed.

(** * Further properties of the engine *)

(** ** Sessions are independent and never removed *)

Lemma grown_no_events (sid : string) (cs : list Call) (state : HaloSessionState) :
  Forall (λ c, is_event_of sid c = false) cs → grown sid cs state = state.
Proof.
  induction 1 as [|c cs Hc _ IH]; [apply grown_nil|].
  by rewrite grown_skip.
Qed.

(** X1.  An accumulator is changed by nothing but a [record_event] on its own
    session: a history without such a call, whatever it does to other
    sessions and whatever [start] and [end] calls it makes on this one,
    leaves the accumulator as it was. *)
Theorem other_calls_leave_session_alone
    (sid : string) (cs : list Call) (self : HaloEngine) (state : HaloSessionState) :
  sessions self !! sid = Some state →
  Forall (λ c, is_event_of sid c = false) cs →
  sessions (run cs self).2 !! sid = Some state.
Proof.
  intros Hk Hcs. rewrite (proj2 (run_total sid cs self)), Hk.
  cbn [after_history]. by rewrite grown_no_events.
Qed.

Lemma other_calls_leave_session_alone_witness :
  sessions engine_s1 !! "s1" = Some state_s1 ∧
  Forall (λ c, is_event_of "s1" c = false) history_others ∧
  sessions (run history_others engine_s1).2 !! "s1" = Some state_s1.
Proof.
  assert (Hothers : Forall (λ c, is_event_of "s1" c = false) history_others).
  { repeat constructor. }
  split; [reflexivity|]. split; [exact Hothers|].
  apply (other_calls_leave_session_alone "s1" history_others engine_s1 state_s1);
    [reflexivity|exact Hothers].
Defined.

(** X2.  The keys of the registry after a history are the keys it had before
    and the sessions that a [start] or a [record_event] of the history
    names: no call removes a session, and [end] creates none. *)
Theorem registry_keys_after_history
    (cs : list Call) (self : HaloEngine) (k : string) :
  k ∈ dom (sessions (run cs self).2) ↔
  k ∈ dom (sessions self) ∨ existsb (creates k) cs = true.
Proof.
  rewrite !elem_of_dom, (proj2 (run_total k cs self)).
  destruct (sessions self !! k) as [state|]; cbn [after_history].
  - split; [by left|]. intros _. by eexists.
  - destruct (existsb (creates k) cs).
    + split; [by right|]. intros _. by eexists.
    + split; [by intros [? ?]|]. by intros [[? ?]|?].
Qed.

(** ** Events of different sessions commute *)

(** X3.  Two [record_event] calls on different sessions give the same two
    summaries and the same registry in either order. *)
Theorem record_event_commutes
    (self : HaloEngine) (sid1 sid2 : string)
    (f1 h1 p1 f2 h2 p2 : option Q) :
  sid1 ≠ sid2 →
  (x ← record_event sid1 f1 h1 p1; y ← record_event sid2 f2 h2 p2; mret (x, y)) self =
  (y ← record_event sid2 f2 h2 p2; x ← record_event sid1 f1 h1 p1; mret (x, y)) self.
Proof.
  intros Hne. unfold mbind, Py_bind, mret, Py_ret.
  rewrite !record_event_total. unfold state_for. cbn [sessions].
  rewrite !lookup_insert_ne by done.
  by rewrite (insert_insert_ne (sessions self) sid1 sid2).
Qed.

Lemma record_event_commutes_witness :
  ("s1" : string) ≠ "s2" ∧
  (x ← record_event "s1" (Some 1%Q) None None;
   y ← record_event "s2" None (Some 2%Q) None; mret (x, y)) engine_s1 =
  (y ← record_event "s2" None (Some 2%Q) None;
   x ← record_event "s1" (Some 1%Q) None None; mret (x, y)) engine_s1.
Proof.
  assert (Hne : ("s1" : string) ≠ "s2") by discriminate.
  split; [exact Hne|].
  apply (record_event_commutes engine_s1 "s1" "s2"). exact Hne.
Defined.

Lemma friction_calls_any_order_witness :
  [float_0_1; float_0_2] ≡ₚ [float_0_2; float_0_1] ∧
  [float_0_1; float_0_2] ≠ [] ∧
  ∃ s m,
    (end_ "s1" (run (friction_calls "s1" [float_0_2; float_0_1])
                  HaloEngine_init).2).1 = Ok (Some s) ∧
    events_count s = Z.of_nat (length [float_0_1; float_0_2]) ∧
    average_friction s = Some m ∧
    is_rounded_mean m [float_0_1; float_0_2] ∧
    m = binary64 (total [float_0_1; float_0_2]
                  / inject_Z (Z.of_nat (length [float_0_1; float_0_2]))).
Proof.
  assert (Hperm : [float_0_1; float_0_2] ≡ₚ [float_0_2; float_0_1])
    by apply perm_swap.
  assert (Hne : [float_0_1; float_0_2] ≠ []) by discriminate.
  split; [exact Hperm|]. split; [exact Hne|].
  apply (friction_calls_any_order "s1" _ _ Hperm Hne).
Defined.

(** ** Averages stay within the values *)

Lemma inject_length_cons (x : Q) (values : list Q) :
  (inject_Z (Z.of_nat (length (x :: values)))
   == inject_Z (Z.of_nat (length values)) + 1)%Q.
Proof.
  cbn [length]. rewrite Nat2Z.inj_succ. unfold Z.succ.
  by rewrite inject_Z_plus.
Qed.

Lemma total_bounds (lo hi : Q) (values : list Q) :
  Forall (λ v, (lo <= v)%Q ∧ (v <= hi)%Q) values →
  (lo * inject_Z (Z.of_nat (length values)) <= total values)%Q ∧
  (total values <= hi * inject_Z (Z.of_nat (length values)))%Q.
Proof.
  induction 1 as [|x values [Hlo Hhi] _ [IHlo IHhi]].
  - cbn. split; rewrite Qmult_0_r; apply Qle_refl.
  - rewrite inject_length_cons. cbn [total fold_right].
    fold (total values). rewrite !Qmult_plus_distr_r, !Qmult_1_r. split.
    + rewrite (Qplus_comm (lo * _)). by apply Qplus_le_compat.
    + rewrite (Qplus_comm (hi * _)). by apply Qplus_le_compat.
Qed.

Lemma list_extrema (x : Q) (values : list Q) :
  ∃ a b, a ∈ x :: values ∧ b ∈ x :: values ∧
         Forall (λ v, (a <= v)%Q ∧ (v <= b)%Q) (x :: values).
Proof.
  revert x. induction values as [|y values IH]; intros x.
  - exists x, x. split; [by constructor|]. split; [by constructor|].
    repeat constructor; apply Qle_refl.
  - destruct (IH y) as (a & b & Ha & Hb & Hall).
    assert (Hmin : ∃ a', a' ∈ x :: y :: values ∧ (a' <= x)%Q ∧ (a' <= a)%Q).
    { destruct (Qlt_le_dec x a) as [Hlt|Hle].
      - exists x. split; [by constructor|].
        split; [apply Qle_refl|by apply Qlt_le_weak].
      - exists a. split; [by constructor|]. split; [done|apply Qle_refl]. }
    assert (Hmax : ∃ b', b' ∈ x :: y :: values ∧ (x <= b')%Q ∧ (b <= b')%Q).
    { destruct (Qlt_le_dec b x) as [Hlt|Hle].
      - exists x. split; [by constructor|].
        split; [apply Qle_refl|by apply Qlt_le_weak].
      - exists b. split; [by constructor|]. split; [done|apply Qle_refl]. }
    destruct Hmin as (a' & Ha' & Hax & Haa), Hmax as (b' & Hb' & Hxb & Hbb).
    exists a', b'. split; [done|]. split; [done|].
    constructor; [done|]. eapply Forall_impl; [exact Hall|].
    intros v [Hav Hvb]. split; by eapply Qle_trans.
Qed.

(** X5.  When the values recorded for a signal are doubles that all lie
    between [lo] and [hi], so does the average that [summary] reports for
    it. *)
Theorem average_within_bounds
    (state : HaloSessionState) (sig : Signal) (lo hi : Q) (s : Summary) (m : Q) :
  Forall is_double (values_of sig state) →
  Forall (λ v, (lo <= v)%Q ∧ (v <= hi)%Q) (values_of sig state) →
  summary state = Ok s →
  average_of sig s = Some m →
  (lo <= m)%Q ∧ (m <= hi)%Q.
Proof.
  intros Hdouble Hall Hs Hm. rewrite summary_total in Hs. injection Hs as <-.
  rewrite average_of_summary_of in Hm.
  destruct (values_of sig state) as [|x values]; [done|].
  injection Hm as <-.
  destruct (list_extrema x values) as (a & b & Ha & Hb & Hab).
  destruct (total_bounds a b _ Hab) as [Hlo Hhi].
  assert (Hpos : (0 < inject_Z (Z.of_nat (length (x :: values))))%Q).
  { unfold Qlt. cbn. lia. }
  rewrite Forall_forall in Hdouble, Hall.
  pose proof (Hdouble a Ha) as Hda. pose proof (Hdouble b Hb) as Hdb.
  unfold is_double in Hda, Hdb. split.
  - eapply Qle_trans; [exact (proj1 (Hall a Ha))|].
    rewrite <- Hda. apply binary64_mono. by apply Qle_shift_div_l.
  - eapply Qle_trans; [|exact (proj2 (Hall b Hb))].
    rewrite <- Hdb. apply binary64_mono. by apply Qle_shift_div_r.
Qed.

Lemma average_within_bounds_witness :
  Forall is_double (values_of Friction state_tenths) ∧
  Forall (λ v, (0 <= v)%Q ∧ (v <= 1)%Q) (values_of Friction state_tenths) ∧
  summary state_tenths = Ok (summary_of state_tenths) ∧
  average_of Friction (summary_of state_tenths)
    = Some (1351079888211149 # 9007199254740992)%Q ∧
  (0 <= 1351079888211149 # 9007199254740992)%Q ∧
  (1351079888211149 # 9007199254740992 <= 1)%Q.
Proof.
  assert (Hdouble : Forall is_double (values_of Friction state_tenths)).
  { repeat constructor; reflexivity. }
  assert (Hall : Forall (λ v, (0 <= v)%Q ∧ (v <= 1)%Q)
                   (values_of Friction state_tenths)).
  { repeat constructor; discriminate. }
  split; [exact Hdouble|]. split; [exact Hall|].
  split; [reflexivity|]. split; [reflexivity|].
  apply (average_within_bounds state_tenths Friction 0 1 (summary_of state_tenths)
           (1351079888211149 # 9007199254740992) Hdouble Hall); reflexivity.
Defined.

(** * Properties of the validation layer *)

(** ** Identifiers *)

Lemma lstrip_all_space (s : string) : all_space s = true → lstrip s = "".
Proof.
  induction s as [|c s IH]; [done|]. cbn.
  intros [Hc Hs]%andb_true_iff. rewrite Hc. by apply IH.
Qed.

Lemma lstrip_starts_with_text (s : string) :
  all_space s = false →
  ∃ c t, lstrip s = String c t ∧ isspace c = false.
Proof.
  induction s as [|c s IH]; [done|]. cbn.
  destruct (isspace c) eqn:Hc; cbn; [apply IH|]. intros _. by exists c, s.
Qed.

Lemma rstrip_empty_iff (s : string) : rstrip s = "" ↔ all_space s = true.
Proof.
  induction s as [|c s IH]; [done|]. cbn.
  destruct (rstrip s) as [|c' t].
  - rewrite (proj1 IH eq_refl), andb_true_r. by destruct (isspace c).
  - assert (Hs : all_space s = false).
    { destruct (all_space s); [|done]. discriminate (proj2 IH eq_refl). }
    rewrite Hs, andb_false_r. split; discriminate.
Qed.

Lemma strip_empty_iff (s : string) : strip s = "" ↔ all_space s = true.
Proof.
  unfold strip. rewrite rstrip_empty_iff. split.
  - intros Hl. destruct (all_space s) eqn:Hs; [done|].
    destruct (lstrip_starts_with_text s Hs) as (c & t & Ht & Hc).
    rewrite Ht in Hl. cbn in Hl. by rewrite Hc in Hl.
  - intros Hs. by rewrite (lstrip_all_space s Hs).
Qed.

Lemma validate_session_id_str (s : string) :
  validate_session_id (VStr s) =
  if all_space s then Some "Invalid session_id: must be a non-empty string."
  else None.
Proof.
  unfold validate_session_id. case_bool_decide as Hs.
  - by rewrite (proj1 (strip_empty_iff s) Hs).
  - destruct (all_space s) eqn:Ha; [|done].
    by destruct Hs; apply strip_empty_iff.
Qed.

Lemma validate_event_type_str (s : string) :
  validate_event_type (VStr s) =
  if all_space s then Some "Invalid event_type: must be a non-empty string."
  else None.
Proof.
  unfold validate_event_type. case_bool_decide as Hs.
  - by rewrite (proj1 (strip_empty_iff s) Hs).
  - destruct (all_space s) eqn:Ha; [|done].
    by destruct Hs; apply strip_empty_iff.
Qed.

(** X6.  [validate_session_id] and [validate_event_type] accept exactly the
    strings that have a character other than white space: [None], an
    object that is no string, the empty string and a string of blanks are
    all refused. *)
Theorem identifier_accepted_iff_has_text (value : PyVal) :
  (validate_session_id value = None ↔ ∃ s, value = VStr s ∧ all_space s = false) ∧
  (validate_event_type value = None ↔ ∃ s, value = VStr s ∧ all_space s = false).
Proof.
  split.
  - destruct value as [| | | |s|]; try (split; [done|by intros (? & ? & ?)]).
    rewrite validate_session_id_str. split.
    + destruct (all_space s) eqn:Hs; [done|]. intros _. by exists s.
    + intros (s' & [= <-] & Hs). by rewrite Hs.
  - destruct value as [| | | |s|]; try (split; [done|by intros (? & ? & ?)]).
    rewrite validate_event_type_str. split.
    + destruct (all_space s) eqn:Hs; [done|]. intros _. by exists s.
    + intros (s' & [= <-] & Hs). by rewrite Hs.
Qed.

(** ** Numbers *)

Lemma float_lt_zero_finite (q : Q) : (Qnum q <? 0) = false ↔ (0 <= q)%Q.
Proof. rewrite Z.ltb_ge. unfold Qle. cbn. lia. Qed.

Lemma float_overflows_nonneg (z : Z) :
  0 ≤ z → float_overflows z = false ↔ z < 2 ^ 1024 - 2 ^ 970.
Proof.
  intros Hz. unfold float_overflows. rewrite Z.leb_gt, Z.abs_eq by done. done.
Qed.

Lemma validate_timestamp_accepts (value : PyVal) :
  validate_timestamp value = Returns None ↔ acceptable_number value.
Proof.
  destruct value as [|b|z|[|negative|q]|s|]; cbn; try done.
  - unfold validate_timestamp. cbn. destruct (z <? 0) eqn:Hz; cbn.
    + apply Z.ltb_lt in Hz. split; [done|lia].
    + apply Z.ltb_ge in Hz. destruct (float_overflows z) eqn:Ho; cbn.
      * split; [done|]. intros [_ Hlt].
        apply (float_overflows_nonneg z Hz) in Hlt. congruence.
      * apply (float_overflows_nonneg z Hz) in Ho. by split.
  - by destruct negative.
  - unfold validate_timestamp. cbn. destruct (Qnum q <? 0) eqn:Hq; cbn.
    + split; [done|]. intros Hle%float_lt_zero_finite. congruence.
    + apply float_lt_zero_finite in Hq. by split.
Qed.

Lemma validate_timestamp_raises (value : PyVal) (e : MathExn) :
  validate_timestamp value = Throws e ↔
  e = OverflowError ∧ ∃ z, value = VInt z ∧ 2 ^ 1024 - 2 ^ 970 ≤ z.
Proof.
  destruct value as [|b|z|[|negative|q]|s|]; cbn;
    try (split; [done|by intros (? & ? & ? & ?)]).
  - unfold validate_timestamp. cbn. destruct (z <? 0) eqn:Hz; cbn.
    + apply Z.ltb_lt in Hz. split; [done|].
      intros (_ & z' & [= <-] & Hge). assert (0 < 2 ^ 1024 - 2 ^ 970) by done. lia.
    + apply Z.ltb_ge in Hz. destruct (float_overflows z) eqn:Ho; cbn.
      * split.
        -- intros [= <-]. split; [done|]. exists z. split; [done|].
           destruct (decide (z < 2 ^ 1024 - 2 ^ 970)) as [Hlt|]; [|lia].
           apply (float_overflows_nonneg z Hz) in Hlt. congruence.
        -- by intros [-> _].
      * split; [done|]. intros (_ & z' & [= <-] & Hge).
        apply (float_overflows_nonneg z Hz) in Ho. lia.
  - destruct negative; split; try done; by intros (? & ? & ? & ?).
  - unfold validate_timestamp. cbn.
    destruct (Qnum q <? 0); cbn; split; try done; by intros (? & ? & ? & ?).
Qed.

Lemma validate_signal_number (name : string) (value : PyVal) :
  value ≠ VNone →
  validate_signal name value =
  match validate_timestamp value with
  | Returns (Some _) =>
      if negb (is_number value)
      then Returns (Some ("Invalid " +:+ name +:+ ": must be a number."))
      else match lt_zero value with
           | Returns true => Returns (Some ("Invalid " +:+ name +:+ ": must be >= 0."))
           | _ => Returns (Some ("Invalid " +:+ name +:+ ": must be a finite number."))
           end
  | other => other
  end.
Proof.
  intros Hnone.
  destruct value as [|b|z|[|negative|q]|s|]; try done.
  - unfold validate_signal, validate_timestamp. cbn.
    destruct (z <? 0); cbn; [done|]. by destruct (float_overflows z).
  - by destruct negative.
  - unfold validate_signal, validate_timestamp. cbn. by destruct (Qnum q <? 0).
Qed.

Lemma is_none_or_not (value : PyVal) : value = VNone ∨ value ≠ VNone.
Proof. destruct value; by (left + right). Qed.

Lemma validate_signal_same_verdict (name : string) (value : PyVal) :
  value ≠ VNone →
  (validate_signal name value = Returns None ↔ validate_timestamp value = Returns None) ∧
  (∀ e, validate_signal name value = Throws e ↔ validate_timestamp value = Throws e).
Proof.
  intros Hnone. rewrite (validate_signal_number name value Hnone).
  destruct (validate_timestamp value) as [[msg|]|e]; [|done..].
  destruct (negb (is_number value)); [by repeat split|].
  destruct (lt_zero value) as [[|]|]; by repeat split.
Qed.

(** X7.  [validate_timestamp] accepts exactly a [bool], an [int] between 0 and
    the largest one that converts to a float, and a finite float that is
    not negative; [validate_signal] accepts these and [None].  A NaN, an
    infinity, a negative number, a string and any other object are
    refused. *)
Theorem number_accepted_iff (name : string) (value : PyVal) :
  (validate_timestamp value = Returns None ↔ acceptable_number value) ∧
  (validate_signal name value = Returns None ↔
   value = VNone ∨ acceptable_number value).
Proof.
  split; [apply validate_timestamp_accepts|].
  destruct (is_none_or_not value) as [->|Hnone].
  - split; [by left|done].
  - rewrite (proj1 (validate_signal_same_verdict name value Hnone)).
    rewrite validate_timestamp_accepts. split; [by right|by intros [?|?]].
Qed.

(** X8.  [validate_timestamp] and [validate_signal] raise an exception on
    exactly one kind of value: an [int] so large that [math.isnan] cannot
    convert it to a float, for which they raise [OverflowError]; they never
    raise [TypeError].  A negative [int], however large, gets the message
    on negative numbers instead: its sign is tested first. *)
Theorem number_validators_raise_iff_huge_int
    (name : string) (value : PyVal) (e : MathExn) :
  (validate_timestamp value = Throws e ↔
   e = OverflowError ∧ ∃ z, value = VInt z ∧ 2 ^ 1024 - 2 ^ 970 ≤ z) ∧
  (validate_signal name value = Throws e ↔
   e = OverflowError ∧ ∃ z, value = VInt z ∧ 2 ^ 1024 - 2 ^ 970 ≤ z) ∧
  (∀ z, z < 0 →
     validate_timestamp (VInt z) =
       Returns (Some "Invalid timestamp: must be >= 0.") ∧
     validate_signal name (VInt z) =
       Returns (Some ("Invalid " +:+ name +:+ ": must be >= 0."))).
Proof.
  split; [apply validate_timestamp_raises|]. split.
  - destruct (is_none_or_not value) as [->|Hnone].
    + split; [done|]. by intros (_ & z & ? & _).
    + rewrite (proj2 (validate_signal_same_verdict name value Hnone)).
      apply validate_timestamp_raises.
  - intros z Hz%Z.ltb_lt.
    unfold validate_timestamp, validate_signal. cbn. by rewrite Hz.
Qed.

Lemma number_validators_raise_iff_huge_int_witness :
  - 2 ^ 1100 < 0 ∧
  validate_timestamp (VInt (- 2 ^ 1100)) =
    Returns (Some "Invalid timestamp: must be >= 0.") ∧
  validate_signal "pace" (VInt (- 2 ^ 1100)) =
    Returns (Some "Invalid pace: must be >= 0.") ∧
  validate_signal "pace" (VInt (2 ^ 1100)) = Throws OverflowError.
Proof.
  split; [reflexivity|].
  destruct (number_validators_raise_iff_huge_int "pace" (VInt (2 ^ 1100)) OverflowError)
    as (_ & [_ Hraise] & Hneg).
  destruct (Hneg (- 2 ^ 1100)) as [Ht Hs]; [reflexivity|].
  split; [exact Ht|]. split; [exact Hs|].
  apply Hraise. split; [reflexivity|]. exists (2 ^ 1100). split; [reflexivity|].
  discriminate.
Defined.

(** X9.  On every value but [None], [validate_timestamp] gives what
    [validate_signal] gives under the name ["timestamp"], message for
    message; they differ on [None] alone, which the first refuses and the
    second accepts. *)
Theorem validate_timestamp_is_signal_check (value : PyVal) :
  value ≠ VNone →
  validate_timestamp value = validate_signal "timestamp" value ∧
  validate_timestamp VNone = Returns (Some "Invalid timestamp: must be a number.") ∧
  validate_signal "timestamp" VNone = Returns None.
Proof.
  intros Hnone. split; [|done].
  by destruct value as [|b|z|[|negative|q]|s|].
Qed.

Lemma validate_timestamp_is_signal_check_witness :
  VFloat (FInf true) ≠ VNone ∧
  validate_timestamp (VFloat (FInf true)) =
    validate_signal "timestamp" (VFloat (FInf true)) ∧
  validate_timestamp VNone = Returns (Some "Invalid timestamp: must be a number.") ∧
  validate_signal "timestamp" VNone = Returns None.
Proof.
  assert (Hne : VFloat (FInf true) ≠ VNone) by discriminate.
  split; [exact Hne|].
  apply (validate_timestamp_is_signal_check (VFloat (FInf true))). exact Hne.
Defined.

(** ** Messages *)

Lemma validate_timestamp_message (value : PyVal) (msg : string) :
  validate_timestamp value = Returns (Some msg) → msg ≠ "".
Proof.
  unfold validate_timestamp.
  destruct (negb (is_number value)); [by intros [= <-]|].
  destruct (lt_zero value) as [[|]|]; cbn; [by intros [= <-]| |done].
  destruct (math_isnan value) as [[|]|]; cbn; [by intros [= <-]| |done].
  destruct (math_isinf value) as [[|]|]; cbn; [by intros [= <-]|done..].
Qed.

Lemma validate_signal_message (name : string) (value : PyVal) (msg : string) :
  validate_signal name value = Returns (Some msg) → msg ≠ "".
Proof.
  destruct (is_none_or_not value) as [->|Hnone]; [done|].
  rewrite (validate_signal_number name value Hnone).
  destruct (validate_timestamp value) as [[msg'|]|e]; [|done..].
  destruct (negb (is_number value)); [by intros [= <-]|].
  destruct (lt_zero value) as [[|]|]; by intros [= <-].
Qed.

(** X10.  A message that a validator returns is never the empty string, so the
    test [if err] of the handlers, which takes the empty string for no
    error, lets no refusal through. *)
Theorem validator_messages_nonempty (name : string) (value : PyVal) (msg : string) :
  validate_session_id value = Some msg ∨
  validate_event_type value = Some msg ∨
  validate_timestamp value = Returns (Some msg) ∨
  validate_signal name value = Returns (Some msg) →
  str_truthy (Some msg) = true.
Proof.
  intros Hmsg. assert (Hne : msg ≠ "").
  { destruct Hmsg as [H|[H|[H|H]]].
    - unfold validate_session_id in H.
      destruct value; try (by injection H as <-).
      case_bool_decide; [by injection H as <-|done].
    - unfold validate_event_type in H.
      destruct value; try (by injection H as <-).
      case_bool_decide; [by injection H as <-|done].
    - by apply (validate_timestamp_message value).
    - by apply (validate_signal_message name value). }
  cbn. by rewrite bool_decide_eq_false_2.
Qed.

Lemma validator_messages_nonempty_witness :
  (validate_session_id VNone = Some "Invalid session_id: must be a non-empty string." ∨
   validate_event_type VNone = Some "Invalid session_id: must be a non-empty string." ∨
   validate_timestamp VNone =
     Returns (Some "Invalid session_id: must be a non-empty string.") ∨
   validate_signal "pace" VNone =
     Returns (Some "Invalid session_id: must be a non-empty string.")) ∧
  str_truthy (Some "Invalid session_id: must be a non-empty string.") = true.
Proof.
  assert (H : validate_session_id VNone
              = Some "Invalid session_id: must be a non-empty string.") by reflexivity.
  split; [by left|].
  apply (validator_messages_nonempty "pace" VNone). by left.
Defined.

(** * Properties of the handlers *)

(** ** The handlers as functions of the world *)

Lemma float_lt_zero_ok (q : Q) : (Qnum q <? 0) = negb (Qle_bool 0 q).
Proof.
  unfold Qle_bool. cbn. rewrite Z.mul_1_r.
  destruct (Z.ltb_spec (Qnum q) 0), (Z.leb_spec 0 (Qnum q)); done || lia.
Qed.

Lemma validate_timestamp_float (f : PyFloat) :
  ∃ msg, validate_timestamp (VFloat f) =
           Returns (if float_ok f then None else Some msg) ∧
         str_truthy (Some msg) = true.
Proof.
  destruct f as [|[|]|q]; try by eexists.
  exists "Invalid timestamp: must be >= 0.".
  unfold validate_timestamp. cbn. rewrite float_lt_zero_ok.
  by destruct (Qle_bool 0 q).
Qed.

Lemma validate_signal_float (name : string) (v : option PyFloat) :
  ∃ msg, validate_signal name (float_val v) =
           Returns (if signal_ok v then None else Some msg) ∧
         str_truthy (Some msg) = true.
Proof.
  destruct v as [[|[|]|q]|]; try by eexists.
  - exists ("Invalid " +:+ name +:+ ": must be >= 0.").
    unfold validate_signal. cbn. rewrite float_lt_zero_ok.
    by destruct (Qle_bool 0 q).
  - by exists "none".
Qed.

Lemma or_else_returns (x : option string) (b : outcome (option string)) :
  or_else (Returns x) b = if str_truthy x then Returns x else b.
Proof. done. Qed.

Lemma event_error_verdict (payload : EventRequest.t) :
  ∃ err, event_error payload = Returns err ∧
         str_truthy err = negb (event_ok payload).
Proof.
  unfold event_error, event_ok.
  rewrite validate_session_id_str, validate_event_type_str.
  destruct (validate_timestamp_float (EventRequest.timestamp payload))
    as (m3 & -> & H3).
  destruct (validate_signal_float "friction" (EventRequest.friction payload))
    as (m4 & -> & H4).
  destruct (validate_signal_float "hesitation" (EventRequest.hesitation payload))
    as (m5 & -> & H5).
  destruct (validate_signal_float "pace" (EventRequest.pace payload))
    as (m6 & -> & H6).
  destruct (all_space (EventRequest.session_id payload)); [by eexists|].
  destruct (all_space (EventRequest.event_type payload)); [by eexists|].
  rewrite !or_else_returns. cbn [str_truthy negb andb].
  destruct (float_ok (EventRequest.timestamp payload)); [|rewrite H3; by eexists].
  destruct (signal_ok (EventRequest.friction payload)); [|rewrite H4; by eexists].
  destruct (signal_ok (EventRequest.hesitation payload)); [|rewrite H5; by eexists].
  destruct (signal_ok (EventRequest.pace payload)); [|by eexists].
  by eexists.
Qed.

Lemma engine_signal_ok (v : option PyFloat) (w : World) :
  signal_ok v = true → engine_signal v w = (Replies (to_engine v), w).
Proof. by destruct v as [[|[|]|q]|]. Qed.

Lemma world_eta (w : World) :
  {| halo_engine := halo_engine w; stdout := stdout w |} = w.
Proof. by destruct w. Qed.

Lemma start_session_total (payload : StartSessionRequest.t) (now : Q) (w : World) :
  let sid := StartSessionRequest.session_id payload in
  Routes.start_session payload now w =
  if all_space sid
  then (Replies (trf false None None None
                   (Some "Invalid session_id: must be a non-empty string.") now), w)
  else (Replies (trf true (Some sid) (Some "session_started")
                   (Some (DataUser (StartSessionRequest.user_id payload))) None now),
        {| halo_engine := (start sid (halo_engine w)).2;
           stdout := stdout w ++ ["[TITAN-CORE] Session started: " +:+ sid] |}).
Proof.
  intros sid. unfold Routes.start_session. fold sid.
  rewrite validate_session_id_str. destruct (all_space sid); [done|].
  cbn [str_truthy]. unfold mbind, Web_bind, on_engine.
  pose proof (call_ok (CallStart sid) (halo_engine w)) as Hok. cbn [call] in Hok.
  destruct (start sid (halo_engine w)) as [r engine']. cbn in Hok. by subst r.
Qed.

Lemma record_event_handler_total (payload : EventRequest.t) (now : Q) (w : World) :
  let sid := EventRequest.session_id payload in
  let friction := to_engine (EventRequest.friction payload) in
  let hesitation := to_engine (EventRequest.hesitation payload) in
  let pace := to_engine (EventRequest.pace payload) in
  let rolling := summary_of (record (state_for sid (halo_engine w))
                               friction hesitation pace) in
  if event_ok payload
  then Routes.record_event payload now w =
       (Replies (trf true (Some sid) (Some (EventRequest.event_type payload))
                   (Some (DataSummary rolling)) None now),
        {| halo_engine := (record_event sid friction hesitation pace (halo_engine w)).2;
           stdout := stdout w ++
             ["[TITAN-CORE] Event: " +:+ EventRequest.event_type payload
              +:+ " | Session: " +:+ sid
              +:+ " | Count: " +:+ pretty (events_count rolling)] |})
  else ∃ msg,
       Routes.record_event payload now w =
       (Replies (trf false (Some sid) (Some (EventRequest.event_type payload))
                   None (Some msg) now), w).
Proof.
  intros sid friction hesitation pace rolling.
  destruct (event_error_verdict payload) as (err & Herr & Htruthy).
  unfold Routes.record_event. rewrite Herr.
  unfold mbind, Web_bind, validated. lazy beta iota. rewrite Htruthy.
  destruct (event_ok payload) eqn:Hok; cbn [negb].
  - unfold event_ok in Hok.
    apply andb_true_iff in Hok as [Hok Hp]. apply andb_true_iff in Hok as [Hok Hh].
    apply andb_true_iff in Hok as [_ Hf].
    rewrite (engine_signal_ok _ w Hf). lazy beta iota.
    rewrite (engine_signal_ok _ w Hh). lazy beta iota.
    rewrite (engine_signal_ok _ w Hp). lazy beta iota.
    unfold on_engine. fold sid friction hesitation pace.
    by rewrite record_event_total.
  - destruct err as [msg|]; [|done]. by exists msg.
Qed.

Lemma end_session_total (payload : EndSessionRequest.t) (now : Q) (w : World) :
  let sid := EndSessionRequest.session_id payload in
  Routes.end_session payload now w =
  if all_space sid
  then (Replies (trf false None None None
                   (Some "Invalid session_id: must be a non-empty string.") now), w)
  else match sessions (halo_engine w) !! sid with
       | None =>
           (Replies (trf false (Some sid) None None (Some "Session not found.") now), w)
       | Some state =>
           (Replies (trf true (Some sid) (Some "session_ended")
                       (if EndSessionRequest.include_summary payload
                        then Some (DataSummary (summary_of state)) else None)
                       None now),
            {| halo_engine := halo_engine w;
               stdout := stdout w ++
                 ["[TITAN-CORE] Session ended: " +:+ sid +:+ " | Total events: "
                  +:+ pretty (event_count state)] |})
       end.
Proof.
  intros sid. unfold Routes.end_session. fold sid.
  rewrite validate_session_id_str. destruct (all_space sid); [done|].
  cbn [str_truthy]. unfold mbind, Web_bind, on_engine. rewrite end_total.
  destruct (sessions (halo_engine w) !! sid) as [state|]; cbn.
  - by destruct (EndSessionRequest.include_summary payload).
  - by rewrite world_eta.
Qed.

Lemma handle_engine (r : Request) (w : World) :
  halo_engine (handle r w).2 =
  match accepted_call r with
  | Some c => (call c (halo_engine w)).2
  | None => halo_engine w
  end.
Proof.
  destruct r as [now|now|payload now|payload now|payload now];
    cbn [handle accepted_call]; [done|done|..].
  - rewrite start_session_total. by destruct (all_space _).
  - pose proof (record_event_handler_total payload now w) as Hev. cbn zeta in Hev.
    destruct (event_ok payload).
    + rewrite Hev. cbn [snd halo_engine call]. unfold mbind, Py_bind.
      by rewrite record_event_total.
    + destruct Hev as [msg ->]. done.
  - rewrite end_session_total. destruct (all_space _); [done|].
    cbn [call]. unfold mbind, Py_bind. rewrite end_total.
    by destruct (sessions (halo_engine w) !! _).
Qed.

Lemma handle_replies (r : Request) (w : World) :
  ∃ a, (handle r w).1 = Replies a.
Proof.
  destruct r as [now|now|payload now|payload now|payload now];
    cbn [handle]; [by eexists|by eexists|..].
  - rewrite start_session_total. destruct (all_space _); by eexists.
  - pose proof (record_event_handler_total payload now w) as Hev. cbn zeta in Hev.
    destruct (event_ok payload).
    + rewrite Hev. by eexists.
    + destruct Hev as [msg ->]. by eexists.
  - rewrite end_session_total. destruct (all_space _); [by eexists|].
    destruct (sessions (halo_engine w) !! _); by eexists.
Qed.

Lemma serve_replies (rs : list Request) (w : World) :
  ∃ answers, (serve rs w).1 = Replies answers ∧ length answers = length rs.
Proof.
  revert w. induction rs as [|r rs IH]; intros w; [by exists []|].
  cbn [serve]. unfold mbind, Web_bind.
  destruct (handle_replies r w) as [a Ha].
  destruct (handle r w) as [x w1]. cbn in Ha. subst x.
  destruct (IH w1) as (answers & Hs & Hlen).
  destruct (serve rs w1) as [y w2]. cbn in Hs. subst y.
  exists (a :: answers). split; [done|]. cbn. by rewrite Hlen.
Qed.

(** ** Requests never fail *)

(** X11.  Whatever the requests and whatever the engine holds, every request is
    answered: no handler lets an exception of a validator or of the engine
    escape, and no signal that is not a finite number reaches the engine. *)
Theorem requests_are_always_answered (rs : list Request) (w : World) :
  ∃ answers, (serve rs w).1 = Replies answers ∧ length answers = length rs.
Proof. apply serve_replies. Qed.

Lemma serve_engine (rs : list Request) (w : World) :
  halo_engine (serve rs w).2 = (run (omap accepted_call rs) (halo_engine w)).2.
Proof.
  revert w. induction rs as [|r rs IH]; intros w; [done|].
  cbn [serve]. unfold mbind, Web_bind.
  pose proof (handle_engine r w) as He.
  destruct (handle_replies r w) as [a Ha].
  destruct (handle r w) as [x w1]. cbn in Ha, He. subst x.
  specialize (IH w1). destruct (serve_replies rs w1) as (answers & Hs & _).
  destruct (serve rs w1) as [y w2]. cbn in Hs, IH. subst y.
  cbn [snd mret Web_ret]. unfold mret, Web_ret. cbn [snd]. rewrite IH, He.
  cbn [omap list_omap]. destruct (accepted_call r) as [c|]; [|done].
  cbn [run]. unfold mbind, Py_bind.
  pose proof (call_ok c (halo_engine w)) as Hok.
  destruct (call c (halo_engine w)) as [y e1]. cbn in Hok. by subst y.
Qed.

(** ** What a request does to the engine *)

(** X12.  The engine after a sequence of requests is the engine after the calls
    that the accepted requests amount to, one call for each, with the
    session identifier and the signals exactly as the request carries them;
    a refused request, [/health] and [/status] do nothing to it. *)
Theorem engine_after_requests (rs : list Request) (w : World) :
  halo_engine (serve rs w).2 = (run (omap accepted_call rs) (halo_engine w)).2.
Proof. apply serve_engine. Qed.

(** ** Refusals and the log *)

(** X13.  A request answered with [ok] false (an invalid field, or [/v1/end] on
    an unknown session) changes nothing: neither the engine nor the log. *)
Theorem refused_request_changes_nothing
    (r : Request) (w w' : World) (a : Response.t) :
  handle r w = (Replies a, w') →
  Response.ok a = false →
  w' = w.
Proof.
  destruct r as [now|now|payload now|payload now|payload now]; cbn [handle].
  - by intros [= <- <-].
  - by intros [= <- <-].
  - rewrite start_session_total. destruct (all_space _); by intros [= <- <-].
  - pose proof (record_event_handler_total payload now w) as Hev. cbn zeta in Hev.
    destruct (event_ok payload).
    + rewrite Hev. by intros [= <- <-].
    + destruct Hev as [msg ->]. by intros [= <- <-].
  - rewrite end_session_total. destruct (all_space _); [by intros [= <- <-]|].
    destruct (sessions (halo_engine w) !! _); by intros [= <- <-].
Qed.

(** X14.  A request on a session answered with [ok] true prints exactly one line,
    also [/v1/start] on a session that exists already and [/v1/end] with
    [include_summary] false; [/health] and [/status] print nothing. *)
Theorem accepted_request_prints_one_line
    (r : Request) (w w' : World) (a : Response.t) :
  handle r w = (Replies a, w') →
  Response.ok a = true →
  ∃ lines, stdout w' = stdout w ++ lines ∧
           length lines = if on_session r then 1%nat else 0%nat.
Proof.
  destruct r as [now|now|payload now|payload now|payload now];
    cbn [handle on_session].
  - intros [= <- <-] _. exists []. by rewrite app_nil_r.
  - intros [= <- <-] _. exists []. by rewrite app_nil_r.
  - rewrite start_session_total. destruct (all_space _); intros [= <- <-]; [done|].
    intros _. by eexists [_].
  - pose proof (record_event_handler_total payload now w) as Hev. cbn zeta in Hev.
    destruct (event_ok payload).
    + rewrite Hev. intros [= <- <-] _. by eexists [_].
    + destruct Hev as [msg ->]. by intros [= <- <-].
  - rewrite end_session_total. destruct (all_space _); [by intros [= <- <-]|].
    destruct (sessions (halo_engine w) !! _); intros [= <- <-]; [|done].
    intros _. by eexists [_].
Qed.

Lemma refused_request_changes_nothing_witness :
  handle (PostEvent event_bad 5) world_s1 =
    (Replies (trf false (Some "s1") (Some "click") None
                (Some "Invalid pace: must be a finite number.") 5), world_s1) ∧
  Response.ok (trf false (Some "s1") (Some "click") None
                 (Some "Invalid pace: must be a finite number.") 5) = false ∧
  world_s1 = world_s1.
Proof.
  split; [reflexivity|]. split; [reflexivity|].
  apply (refused_request_changes_nothing (PostEvent event_bad 5) world_s1 world_s1
           (trf false (Some "s1") (Some "click") None
              (Some "Invalid pace: must be a finite number.") 5)); reflexivity.
Defined.

Lemma accepted_request_prints_one_line_witness :
  (handle (PostEnd (EndSessionRequest.mk "s1" false) 6) world_s1).1 =
    Replies (trf true (Some "s1") (Some "session_ended") None None 6) ∧
  ∃ lines,
    stdout (handle (PostEnd (EndSessionRequest.mk "s1" false) 6) world_s1).2 =
      stdout world_s1 ++ lines ∧
    length lines = 1%nat.
Proof.
  split; [reflexivity|].
  apply (accepted_request_prints_one_line
           (PostEnd (EndSessionRequest.mk "s1" false) 6) world_s1 _
           (trf true (Some "s1") (Some "session_ended") None None 6));
    reflexivity.
Defined.

(** ** Invariants of the registry behind the handlers *)

Lemma accepted_call_creates (r : Request) (c : Call) (k : string) :
  accepted_call r = Some c → creates k c = true → all_space k = false.
Proof.
  destruct r as [now|now|payload now|payload now|payload now]; cbn; try done.
  - destruct (all_space _) eqn:Hs; [done|]. intros [= <-]. cbn.
    by intros <-%bool_decide_eq_true.
  - destruct (event_ok payload) eqn:Hok; [|done]. intros [= <-]. cbn.
    intros <-%bool_decide_eq_true. unfold event_ok in Hok.
    repeat (apply andb_true_iff in Hok as [Hok _]).
    by apply negb_true_iff in Hok.
  - destruct (all_space _); [done|]. by intros [= <-].
Qed.

Lemma to_engine_not_negative (v : option PyFloat) (x : Q) :
  signal_ok v = true → to_engine v = Some x → (0 <= x)%Q.
Proof.
  destruct v as [[|[|]|q]|]; try done. cbn.
  intros Hq%Qle_bool_iff [= <-]. done.
Qed.

Lemma accepted_call_recorded (r : Request) (c : Call) (sig : Signal) (sid : string) :
  accepted_call r = Some c →
  Forall (λ v, (0 <= v)%Q) (recorded_by sig sid c).
Proof.
  destruct r as [now|now|payload now|payload now|payload now]; cbn; try done.
  - destruct (all_space _); [done|]. intros [= <-]. constructor.
  - destruct (event_ok payload) eqn:Hok; [|done]. intros [= <-]. cbn.
    destruct (decide _); [|constructor].
    unfold event_ok in Hok.
    apply andb_true_iff in Hok as [Hok Hp]. apply andb_true_iff in Hok as [Hok Hh].
    apply andb_true_iff in Hok as [_ Hf].
    destruct sig; cbn [supplied].
    + destruct (to_engine (EventRequest.friction payload)) as [x|] eqn:Hx;
        repeat constructor. by apply (to_engine_not_negative _ _ Hf).
    + destruct (to_engine (EventRequest.hesitation payload)) as [x|] eqn:Hx;
        repeat constructor. by apply (to_engine_not_negative _ _ Hh).
    + destruct (to_engine (EventRequest.pace payload)) as [x|] eqn:Hx;
        repeat constructor. by apply (to_engine_not_negative _ _ Hp).
  - destruct (all_space _); [done|]. intros [= <-]. constructor.
Qed.

Lemma recorded_Forall (P : Q → Prop) (sig : Signal) (sid : string) (cs : list Call) :
  Forall (λ c, Forall P (recorded_by sig sid c)) cs →
  Forall P (recorded sig sid cs).
Proof.
  induction 1 as [|c cs Hc _ IH]; [constructor|].
  rewrite recorded_cons. by apply Forall_app.
Qed.

Lemma total_lower (lo : Q) (values : list Q) :
  Forall (λ v, (lo <= v)%Q) values →
  (lo * inject_Z (Z.of_nat (length values)) <= total values)%Q.
Proof.
  induction 1 as [|x values Hlo _ IH].
  - cbn. rewrite Qmult_0_r. apply Qle_refl.
  - rewrite inject_length_cons. cbn [total fold_right]. fold (total values).
    rewrite Qmult_plus_distr_r, Qmult_1_r, (Qplus_comm (lo * _)).
    by apply Qplus_le_compat.
Qed.

(** X15.  Whatever requests have been served since the module was loaded, every
    key of the registry is a session identifier that [validate_session_id]
    accepts: it has a character that is no white space. *)
Theorem registry_keys_are_valid_ids (rs : list Request) (k : string) :
  k ∈ dom (sessions (halo_engine (serve rs World_init).2)) →
  all_space k = false ∧ validate_session_id (VStr k) = None.
Proof.
  rewrite serve_engine. cbn [halo_engine World_init].
  rewrite elem_of_dom, run_init_lookup.
  destruct (existsb (creates k) (omap accepted_call rs)) eqn:Hex;
    [|by intros [? ?]].
  intros _. apply existsb_exists in Hex as (c & Hc & Hk).
  apply list_elem_of_In, list_elem_of_omap in Hc as (r & _ & Hr).
  pose proof (accepted_call_creates r c k Hr Hk) as Hs.
  split; [done|]. by rewrite validate_session_id_str, Hs.
Qed.

Lemma registry_keys_are_valid_ids_witness :
  "s1" ∈ dom (sessions (halo_engine (serve requests_s1 World_init).2)) ∧
  all_space "s1" = false ∧ validate_session_id (VStr "s1") = None.
Proof.
  assert (Hk : "s1" ∈ dom (sessions (halo_engine (serve requests_s1 World_init).2))).
  { apply elem_of_dom. by eexists. }
  split; [exact Hk|].
  apply (registry_keys_are_valid_ids requests_s1 "s1"). exact Hk.
Defined.

(** X16.  Whatever requests have been served since the module was loaded, no
    value in any sequence of any session is negative, and so no average
    that a summary reports is negative. *)
Theorem recorded_values_are_not_negative
    (rs : list Request) (sid : string) (state : HaloSessionState) (sig : Signal) :
  sessions (halo_engine (serve rs World_init).2) !! sid = Some state →
  Forall (λ v, (0 <= v)%Q) (values_of sig state) ∧
  ∀ s m, summary state = Ok s → average_of sig s = Some m → (0 <= m)%Q.
Proof.
  rewrite serve_engine. cbn [halo_engine World_init]. rewrite run_init_lookup.
  destruct (existsb _ _); [|done]. intros [= <-].
  assert (Hall : Forall (λ v, (0 <= v)%Q)
                   (values_of sig (grown sid (omap accepted_call rs)
                                     (HaloSessionState_init sid)))).
  { rewrite values_of_grown_init. apply recorded_Forall, Forall_forall.
    intros c (r & _ & Hr)%list_elem_of_omap.
    by apply (accepted_call_recorded r). }
  split; [done|]. intros s m Hs Hm.
  rewrite summary_total in Hs. injection Hs as <-.
  rewrite average_of_summary_of in Hm.
  pose proof (total_lower 0 _ Hall) as Hlo.
  destruct (values_of sig _) as [|x values]; [done|]. injection Hm as <-.
  apply binary64_nonneg, Qle_shift_div_l; [|done]. unfold Qlt. cbn. lia.
Qed.

Lemma recorded_values_are_not_negative_witness :
  sessions (halo_engine (serve requests_s1 World_init).2) !! "s1" =
    Some (record (HaloSessionState_init "s1") (Some (4 # 10)%Q) None None) ∧
  Forall (λ v, (0 <= v)%Q)
    (values_of Friction
       (record (HaloSessionState_init "s1") (Some (4 # 10)%Q) None None)).
Proof.
  split; [reflexivity|].
  apply (recorded_values_are_not_negative requests_s1 "s1" _ Friction). reflexivity.
Defined.

(** ** The three handlers on sessions *)

(** X17.  The handler of [/v1/event] answers an event whose fields are all in
    order with the summary that [HaloEngine.record_event] returns for the
    session identifier and the signals of the request, leaves the engine
    as that method leaves it, and prints the count of that summary; it
    answers any other event with [ok] false, the identifier and the event
    type of the request, a message and no data, and touches nothing. *)
Theorem event_request_outcome (payload : EventRequest.t) (now : Q) (w : World) :
  let sid := EventRequest.session_id payload in
  let event_type := EventRequest.event_type payload in
  let called := record_event sid
                  (to_engine (EventRequest.friction payload))
                  (to_engine (EventRequest.hesitation payload))
                  (to_engine (EventRequest.pace payload)) (halo_engine w) in
  if event_ok payload
  then ∃ rolling,
       called.1 = Ok rolling ∧
       Routes.record_event payload now w =
       (Replies {| Response.ok := true;
                   Response.session_id := Some sid;
                   Response.event := Some event_type;
                   Response.data := DataSummary rolling;
                   Response.msg := None;
                   Response.version := "1.0.0";
                   Response.timestamp := now |},
        {| halo_engine := called.2;
           stdout := stdout w ++
             ["[TITAN-CORE] Event: " +:+ event_type +:+ " | Session: " +:+ sid
              +:+ " | Count: " +:+ pretty (events_count rolling)] |})
  else ∃ msg,
       Routes.record_event payload now w =
       (Replies {| Response.ok := false;
                   Response.session_id := Some sid;
                   Response.event := Some event_type;
                   Response.data := DataEmpty;
                   Response.msg := Some msg;
                   Response.version := "1.0.0";
                   Response.timestamp := now |}, w).
Proof.
  intros sid event_type called.
  pose proof (record_event_handler_total payload now w) as Hev. cbn zeta in Hev.
  destruct (event_ok payload); [|done].
  eexists. split; [|exact Hev]. unfold called. by rewrite record_event_total.
Qed.

(** X18.  The handler of [/v1/end] never changes the engine.  It answers [ok]
    true exactly when the identifier has a character that is no white
    space and the session is in the registry; the data of that answer is
    the summary of the session when [include_summary] is set and empty
    when it is not, and the line it prints carries the event count in both
    cases.  Every other answer has no data and prints nothing. *)
Theorem end_session_outcome (payload : EndSessionRequest.t) (now : Q) (w : World) :
  let sid := EndSessionRequest.session_id payload in
  ∃ a w',
    Routes.end_session payload now w = (Replies a, w') ∧
    halo_engine w' = halo_engine w ∧
    match sessions (halo_engine w) !! sid with
    | Some state =>
        if all_space sid
        then Response.ok a = false ∧ Response.data a = DataEmpty ∧ w' = w
        else Response.ok a = true ∧
             Response.data a =
               (if EndSessionRequest.include_summary payload
                then DataSummary (summary_of state) else DataEmpty) ∧
             stdout w' = stdout w ++
               ["[TITAN-CORE] Session ended: " +:+ sid +:+ " | Total events: "
                +:+ pretty (event_count state)]
    | None => Response.ok a = false ∧ Response.data a = DataEmpty ∧ w' = w
    end.
Proof.
  intros sid. rewrite end_session_total. fold sid.
  destruct (sessions (halo_engine w) !! sid) as [state|];
    destruct (all_space sid); eexists _, _; (split; [reflexivity|]); try done.
  by destruct (EndSessionRequest.include_summary payload).
Qed.

(** X19.  [/v1/start] on a session that exists already is answered like a first
    start, with [ok] true and the event [session_started], and prints its
    line, while the engine and all that the session has accumulated stay
    as they were. *)
Theorem start_session_on_existing
    (payload : StartSessionRequest.t) (now : Q) (w : World)
    (state : HaloSessionState) :
  let sid := StartSessionRequest.session_id payload in
  sessions (halo_engine w) !! sid = Some state →
  all_space sid = false →
  Routes.start_session payload now w =
  (Replies {| Response.ok := true;
              Response.session_id := Some sid;
              Response.event := Some "session_started";
              Response.data := DataUser (StartSessionRequest.user_id payload);
              Response.msg := None;
              Response.version := "1.0.0";
              Response.timestamp := now |},
   {| halo_engine := halo_engine w;
      stdout := stdout w ++ ["[TITAN-CORE] Session started: " +:+ sid] |}).
Proof.
  intros sid Hk Hs. rewrite start_session_total. fold sid. rewrite Hs.
  by rewrite (start_known _ _ _ Hk).
Qed.

Lemma start_session_on_existing_witness :
  sessions (halo_engine world_s1) !! "s1" = Some state_s1 ∧
  all_space "s1" = false ∧
  Routes.start_session (StartSessionRequest.mk "s1" (Some "u1")) 7 world_s1 =
  (Replies {| Response.ok := true;
              Response.session_id := Some "s1";
              Response.event := Some "session_started";
              Response.data := DataUser (Some "u1");
              Response.msg := None;
              Response.version := "1.0.0";
              Response.timestamp := 7 |},
   {| halo_engine := halo_engine world_s1;
      stdout := stdout world_s1 ++ ["[TITAN-CORE] Session started: s1"] |}).
Proof.
  split; [reflexivity|]. split; [reflexivity|].
  apply (start_session_on_existing (StartSessionRequest.mk "s1" (Some "u1")) 7
           world_s1 state_s1); reflexivity.
Defined.

(** ** A sequence of requests, run *)

Example requests_s1_answers :
  (λ a, (Response.ok a, Response.msg a)) <$>
    match (serve requests_s1 World_init).1 with
    | Replies answers => answers
    | Fails _ => []
    end =
  [(true, Some "ok");
   (false, Some "Invalid pace: must be a finite number.");
   (true, None);
   (true, None);
   (false, Some "Invalid session_id: must be a non-empty string.");
   (true, None)].
Proof. reflexivity. Qed.

Example requests_s1_log :
  stdout (serve requests_s1 World_init).2 =
  ["[TITAN-CORE] Session started: s1";
   "[TITAN-CORE] Event: click | Session: s1 | Count: 1";
   "[TITAN-CORE] Session ended: s1 | Total events: 1"].
Proof. reflexivity. Qed.
